(** * VibeCheck Pro: the Electron host process (main.js)

    A shallow embedding of [main.js]: the sidecar launcher, the three IPC
    handlers and the auto-update listeners, followed by the properties of
    the host that the specification states.  After it come the script of
    the page (index.html), which calls those handlers, and the release
    script, which builds the release directory.

    The host is event driven.  Every callback of [main.js] is a computation
    in a small monad that threads the two module-level variables
    ([mainWindow], [flaskProcess]), records the calls made to the outside
    world (Electron, the updater, the console, child_process) and may
    complete abruptly with a thrown error.  Whatever the outside world
    answers (the file system, the HTTP round trip, the native dialogs) is
    read from a [Runtime] record; the reads of the disk and the HTTP
    request itself are not recorded as calls, only answered. *)

From Stdlib Require Import String Ascii List ZArith QArith Bool Lia.
From Stdlib Require Import DecimalString.
Import ListNotations.
Close Scope Q_scope.
Open Scope string_scope.
Set Warnings "-register-all".

(* ================================================================== *)
(** ** JavaScript values *)
(* ================================================================== *)

Module Js.

(** The values that cross the HTTP and IPC boundaries.  A number is kept
    as a rational: every finite double is one, and a JSON body carries
    neither NaN nor an infinity.  [Obj] lists the own properties of an
    object, each key once. *)
Inductive value : Type :=
| Undefined
| Null
| Bool (b : bool)
| Num (q : Q)
| Str (s : string)
| Date (ms : Z)
| Arr (items : list value)
| Obj (props : list (string * value)).

(** An instance of [Error]; [code] is the Node system-error code. *)
Record Error : Type := mkError {
  name : string;
  message : string;
  code : option string
}.

(** ToBoolean. *)
Definition truthy (v : value) : bool :=
  match v with
  | Undefined | Null => false
  | Bool b => b
  | Num q => negb (Qnum q =? 0)%Z
  | Str s => negb (s =? "")
  | Date _ | Arr _ | Obj _ => true
  end.

(** [a || b]. *)
Definition or (a b : value) : value := if truthy a then a else b.

Fixpoint lookup (k : string) (props : list (string * value)) : value :=
  match props with
  | [] => Undefined
  | (k', v) :: rest => if k =? k' then v else lookup k rest
  end.

Definition describe (v : value) : string :=
  match v with Null => "null" | _ => "undefined" end.

(** The TypeError V8 raises when a property of [null] or [undefined] is
    read. *)
Definition TypeError_read (v : value) (k : string) : Error :=
  {| name := "TypeError";
     message := "Cannot read properties of " ++ describe v
                ++ " (reading '" ++ k ++ "')";
     code := None |}.

(** [v.k] for the plain data keys read by main.js ([success],
    [reportPath], [error]), none of which is found on a prototype. *)
Definition get (v : value) (k : string) : Error + value :=
  match v with
  | Undefined | Null => inl (TypeError_read v k)
  | Obj props => inr (lookup k props)
  | _ => inr Undefined
  end.

End Js.

(* ================================================================== *)
(** ** The world outside the host *)
(* ================================================================== *)

(** What a path names on disk. *)
Inductive FsEntry : Type :=
| File (content : list Byte.byte) (mtime : Z)
| NoEntry
| NoAccess.

Record Stats : Type := { size : Z; mtime : Z }.

(** How the upload settles: the [data] of the response that [axios.post]
    resolves with, or the error thrown on the way (by [axios.post] for a
    refused connection, a status outside 2xx or a timeout; by the read
    stream or the form before the request leaves). *)
Inductive PostOutcome : Type :=
| Resolved (data : Js.value)
| Rejected (err : Js.Error).

Record OpenDialogResult : Type := {
  canceled : bool;
  filePaths : list string
}.

Record Runtime : Type := {
  NODE_ENV : option string;            (* process.env.NODE_ENV *)
  platform : string;                   (* process.platform *)
  resourcesPath : option string;       (* process.resourcesPath *)
  dirname : string;                    (* __dirname *)
  path_join : list string -> string;   (* path.join *)
  path_basename : string -> string;    (* path.basename *)
  fs_entry : string -> FsEntry;        (* the disk *)
  axios_post : string -> string -> PostOutcome;
                                       (* url, uploaded file *)
  showOpenDialog : OpenDialogResult    (* what the file chooser
                                          resolves with *)
}.

(** [fs.existsSync]: true only when the path can be reached. *)
Definition existsSync (rt : Runtime) (p : string) : bool :=
  match fs_entry rt p with
  | File _ _ => true
  | NoEntry | NoAccess => false
  end.

Definition ENOENT (p : string) : Js.Error :=
  {| Js.name := "Error";
     Js.message := "ENOENT: no such file or directory, stat '" ++ p ++ "'";
     Js.code := Some "ENOENT" |}.

Definition EACCES (p : string) : Js.Error :=
  {| Js.name := "Error";
     Js.message := "EACCES: permission denied, stat '" ++ p ++ "'";
     Js.code := Some "EACCES" |}.

(** [fs.promises.stat], settled. *)
Definition fs_stat (rt : Runtime) (p : string) : Js.Error + Stats :=
  match fs_entry rt p with
  | File content m =>
      inr {| size := Z.of_nat (length content); mtime := m |}
  | NoEntry => inl (ENOENT p)
  | NoAccess => inl (EACCES p)
  end.

(* ================================================================== *)
(** ** Host state, effects and the monad of callbacks *)
(* ================================================================== *)

Inductive BrowserWindow : Type :=
| Window (width height minWidth minHeight : Z).

Record ChildProcess : Type := {
  command : string;
  args : list string;
  env_overlay : list (string * string)
}.

(** The module-level [let] variables of main.js. *)
Record Host : Type := {
  mainWindow : option BrowserWindow;
  flaskProcess : option ChildProcess
}.

Inductive LogArg : Type :=
| LStr (s : string)
| LErr (e : Js.Error).

(** The two message boxes of the update listeners. *)
Inductive Prompt : Type := DownloadPrompt | InstallPrompt.

Inductive Effect : Type :=
| ConsoleLog (items : list LogArg)
| ConsoleError (items : list LogArg)
| ShowErrorBox (title content : string)
| ShowMessageBox (p : Prompt) (parent : option BrowserWindow)
                 (title msg : string) (buttons : list string)
| ShowOpenDialog (parent : option BrowserWindow)
                 (properties : list string)
                 (filters : list (string * list string))
| Send (channel : string) (payload : Js.value)
| NewBrowserWindow (w : BrowserWindow)
| LoadFile (file : string)
| OpenDevTools
| Spawn (child : ChildProcess)
| Kill (child : ChildProcess)
| AppQuit
| UpdaterCheckForUpdates (caught : bool)
| UpdaterDownloadUpdate
| UpdaterQuitAndInstall.

Inductive Completion (A : Type) : Type :=
| Normal (a : A)
| Throw (e : Js.Error).
Arguments Normal {A} a.
Arguments Throw {A} e.

Record Outcome (A : Type) : Type := mkOutcome {
  effects : list Effect;
  host : Host;
  completion : Completion A
}.
Arguments mkOutcome {A}.
Arguments effects {A}.
Arguments host {A}.
Arguments completion {A}.

Definition M (A : Type) : Type := Host -> Outcome A.

Definition ret {A} (a : A) : M A :=
  fun h => mkOutcome [] h (Normal a).

Definition throw {A} (e : Js.Error) : M A :=
  fun h => mkOutcome [] h (Throw e).

Definition bind {A B} (m : M A) (f : A -> M B) : M B :=
  fun h =>
    let o := m h in
    match completion o with
    | Normal a =>
        let o' := f a (host o) in
        mkOutcome (effects o ++ effects o') (host o') (completion o')
    | Throw e => mkOutcome (effects o) (host o) (Throw e)
    end.

(** [try { m } catch (error) { handler error }]. *)
Definition try_catch {A} (m : M A) (handler : Js.Error -> M A) : M A :=
  fun h =>
    let o := m h in
    match completion o with
    | Normal a => o
    | Throw e =>
        let o' := handler e (host o) in
        mkOutcome (effects o ++ effects o') (host o') (completion o')
    end.

Definition perform (fx : Effect) : M unit :=
  fun h => mkOutcome [fx] h (Normal tt).

Definition get_host : M Host :=
  fun h => mkOutcome [] h (Normal h).

Definition set_host (h' : Host) : M unit :=
  fun _ => mkOutcome [] h' (Normal tt).

(** A settled promise, awaited: a rejection is rethrown. *)
Definition await {A} (r : Js.Error + A) : M A :=
  match r with
  | inl e => throw e
  | inr a => ret a
  end.

Declare Scope host_scope.
Delimit Scope host_scope with host.
Notation "x <- m ;; k" := (bind m (fun x => k))
  (at level 61, m at next level, right associativity) : host_scope.
Notation "m ;; k" := (bind m (fun _ => k))
  (at level 61, right associativity) : host_scope.
Open Scope host_scope.

(* ================================================================== *)
(** ** main.js *)
(* ================================================================== *)

(** [autoUpdater.autoDownload = false] and
    [autoUpdater.autoInstallOnAppQuit = true]. *)
Record UpdaterConfig : Type := {
  autoDownload : bool;
  autoInstallOnAppQuit : bool
}.

Definition autoUpdater_config : UpdaterConfig :=
  {| autoDownload := false; autoInstallOnAppQuit := true |}.

Definition new_Error (msg : string) : Js.Error :=
  {| Js.name := "Error"; Js.message := msg; Js.code := None |}.

Record UpdateInfo : Type := { version : string }.

(** What [autoUpdater] emits. *)
Inductive UpdaterEvent : Type :=
| CheckingForUpdate
| UpdateAvailable (info : UpdateInfo)
| UpdateNotAvailable (info : UpdateInfo)
| UpdaterError (err : Js.Error)
| DownloadProgress (progressObj : Js.value)
| UpdateDownloaded (info : UpdateInfo).

Section Main.

Variable rt : Runtime.

Definition isDev : bool :=
  match NODE_ENV rt with
  | Some v => v =? "development"
  | None => false
  end.

Definition python_in_resources (r : string) : string :=
  if platform rt =? "win32"
  then path_join rt [r; "python"; "Scripts"; "python.exe"]
  else path_join rt [r; "python"; "bin"; "python3"].

Definition getPythonPath : M string :=
  if isDev then
    ret (if platform rt =? "win32" then "python" else "python3")
  else
    match resourcesPath rt with
    | None => throw (new_Error "Resources path not found")
    | Some r =>
        if r =? "" then throw (new_Error "Resources path not found")
        else
          let pythonPath := python_in_resources r in
          if negb (existsSync rt pythonPath)
          then throw (new_Error
                        ("Python executable not found at: " ++ pythonPath))
          else ret pythonPath
    end.

Definition startFlaskServer : M unit :=
  try_catch
    (pythonPath <- getPythonPath ;;
     let flaskScript := path_join rt [dirname rt; "flask_server.py"] in
     perform (ConsoleLog [LStr "Starting Flask server with Python:";
                          LStr pythonPath]) ;;
     perform (ConsoleLog [LStr "Flask script path:"; LStr flaskScript]) ;;
     let child := {| command := pythonPath;
                     args := [flaskScript];
                     env_overlay :=
                       [("PYTHONPATH", path_join rt [dirname rt])] |} in
     perform (Spawn child) ;;
     h <- get_host ;;
     set_host {| mainWindow := mainWindow h; flaskProcess := Some child |})
    (fun error =>
       perform (ConsoleError [LStr "Error starting Flask server:";
                              LErr error]) ;;
       perform (ShowErrorBox "Server Error"
                  ("Failed to start server: " ++ Js.message error))).

(** The listeners [startFlaskServer] attaches to the child. *)
Definition flask_on_stdout (data : string) : M unit :=
  perform (ConsoleLog [LStr ("Flask server: " ++ data)]).

Definition flask_on_stderr (data : string) : M unit :=
  perform (ConsoleError [LStr ("Flask server error: " ++ data)]).

Definition flask_on_error (err : Js.Error) : M unit :=
  perform (ConsoleError [LStr "Failed to start Flask server:"; LErr err]) ;;
  perform (ShowErrorBox "Server Error"
             ("Failed to start server: " ++ Js.message err)).

(** [checkForUpdates]: the returned promise gets a [catch]. *)
Definition checkForUpdates : M unit :=
  perform (UpdaterCheckForUpdates true).

Definition checkForUpdates_catch (err : Js.Error) : M unit :=
  perform (ConsoleError [LStr "Error checking for updates:"; LErr err]).

Definition createWindow : M unit :=
  let w := Window 1000 800 800 600 in
  perform (NewBrowserWindow w) ;;
  h <- get_host ;;
  set_host {| mainWindow := Some w; flaskProcess := flaskProcess h |} ;;
  perform (LoadFile "index.html") ;;
  (if isDev then perform OpenDevTools else ret tt) ;;
  startFlaskServer ;;
  checkForUpdates.

(** [mainWindow.webContents.send]. *)
Definition webContents_send (channel : string) (payload : Js.value)
  : M unit :=
  h <- get_host ;;
  match mainWindow h with
  | Some _ => perform (Send channel payload)
  | None => throw (Js.TypeError_read Js.Undefined "webContents")
  end.

(** *** The listeners on [autoUpdater], in the order they are registered *)

(* autoUpdater.on('update-available'), first registration *)
Definition on_update_available_prompt (info : UpdateInfo) : M unit :=
  h <- get_host ;;
  perform (ShowMessageBox DownloadPrompt (mainWindow h) "Update Available"
             ("Version " ++ version info
              ++ " is available. Would you like to download it now?")
             ["Yes"; "No"]).

(* its .then((result) => ...) *)
Definition download_prompt_then (response : Z) : M unit :=
  if (response =? 0)%Z then perform UpdaterDownloadUpdate else ret tt.

(* autoUpdater.on('update-downloaded'), first registration *)
Definition on_update_downloaded_prompt (info : UpdateInfo) : M unit :=
  h <- get_host ;;
  perform (ShowMessageBox InstallPrompt (mainWindow h) "Update Ready"
             ("Version " ++ version info
              ++ " has been downloaded. Would you like to install it now?")
             ["Yes"; "No"]).

(* its .then((result) => ...) *)
Definition install_prompt_then (response : Z) : M unit :=
  if (response =? 0)%Z then perform UpdaterQuitAndInstall else ret tt.

(* autoUpdater.on('error'), first registration *)
Definition on_error_box (err : Js.Error) : M unit :=
  perform (ShowErrorBox "Update Error" (Js.message err)).

(* autoUpdater.on('checking-for-update') *)
Definition on_checking_status : M unit :=
  webContents_send "update-status" (Js.Str "Checking for updates...").

(* autoUpdater.on('update-available'), second registration *)
Definition on_update_available_status (info : UpdateInfo) : M unit :=
  webContents_send "update-status"
    (Js.Str "Update available. Downloading...").

(* autoUpdater.on('update-not-available') *)
Definition on_update_not_available_status (info : UpdateInfo) : M unit :=
  webContents_send "update-status" (Js.Str "No updates available").

(* autoUpdater.on('error'), second registration *)
Definition on_error_status (err : Js.Error) : M unit :=
  webContents_send "update-status" (Js.Str "Error checking for updates").

(* autoUpdater.on('download-progress') *)
Definition on_download_progress (progressObj : Js.value) : M unit :=
  webContents_send "update-progress" progressObj.

(* autoUpdater.on('update-downloaded'), second registration *)
Definition on_update_downloaded_restart (info : UpdateInfo) : M unit :=
  webContents_send "update-status"
    (Js.Str "Update downloaded. Restarting...") ;;
  perform UpdaterQuitAndInstall.

(** An emitter calls the listeners of an event one after the other, in
    registration order; a listener that throws ends the emission. *)
Definition autoUpdater_emit (e : UpdaterEvent) : M unit :=
  match e with
  | CheckingForUpdate => on_checking_status
  | UpdateAvailable info =>
      on_update_available_prompt info ;; on_update_available_status info
  | UpdateNotAvailable info => on_update_not_available_status info
  | UpdaterError err => on_error_box err ;; on_error_status err
  | DownloadProgress progressObj => on_download_progress progressObj
  | UpdateDownloaded info =>
      on_update_downloaded_prompt info ;; on_update_downloaded_restart info
  end.

(** The [setInterval] callback: no [catch] on the promise. *)
Definition hourly_tick : M unit :=
  perform (UpdaterCheckForUpdates false).

Definition interval_ms : Z := 1000 * 60 * 60.

(** *** The IPC handlers *)

(* ipcMain.handle('select-file') *)
Definition select_file : M Js.value :=
  h <- get_host ;;
  perform (ShowOpenDialog (mainWindow h) ["openFile"]
             [("IDE Files", ["ide"])]) ;;
  let result := showOpenDialog rt in
  match canceled result, filePaths result with
  | false, p :: _ => ret (Js.Str p)
  | _, _ => ret Js.Null
  end.

(* ipcMain.handle('get-file-info') *)
Definition get_file_info (filePath : string) : M Js.value :=
  try_catch
    (stats <- await (fs_stat rt filePath) ;;
     ret (Js.Obj [("name", Js.Str (path_basename rt filePath));
                  ("size", Js.Num (inject_Z (size stats)));
                  ("lastModified", Js.Date (mtime stats))]))
    (fun error =>
       perform (ConsoleError [LStr "Error getting file info:"; LErr error]) ;;
       throw error).

Definition analyze_url : string := "http://localhost:5000/analyze".

Definition settle (o : PostOutcome) : Js.Error + Js.value :=
  match o with
  | Resolved data => inr data
  | Rejected err => inl err
  end.

(* ipcMain.handle('analyze-file') *)
Definition analyze_file (filePath : string) : M Js.value :=
  try_catch
    (data <- await (settle (axios_post rt analyze_url filePath)) ;;
     success <- await (Js.get data "success") ;;
     if Js.truthy success then
       reportPath <- await (Js.get data "reportPath") ;;
       ret (Js.Obj [("success", Js.Bool true); ("path", reportPath)])
     else
       error <- await (Js.get data "error") ;;
       ret (Js.Obj [("success", Js.Bool false);
                    ("error", Js.or error (Js.Str "Analysis failed"))]))
    (fun error =>
       perform (ConsoleError [LStr "Analysis error:"; LErr error]) ;;
       ret (Js.Obj [("success", Js.Bool false);
                    ("error", Js.or (Js.Str (Js.message error))
                                    (Js.Str "Failed to analyze file"))])).

Definition ipc_handle (channel : string) (arg : string) : M Js.value :=
  if channel =? "select-file" then select_file
  else if channel =? "get-file-info" then get_file_info arg
  else if channel =? "analyze-file" then analyze_file arg
  else throw (new_Error ("No handler registered for '" ++ channel ++ "'")).

(** *** The application events *)

Definition on_window_all_closed : M unit :=
  if negb (platform rt =? "darwin") then perform AppQuit else ret tt.

Definition on_activate (open_windows : nat) : M unit :=
  if Nat.eqb open_windows 0 then createWindow else ret tt.

Definition on_before_quit : M unit :=
  h <- get_host ;;
  match flaskProcess h with
  | Some child => perform (Kill child)
  | None => ret tt
  end.

(** *** The event loop *)

(** Everything that can make a callback of main.js run. *)
Inductive Input : Type :=
| AppReady
| HourlyTick
| Updater (e : UpdaterEvent)
| MessageBoxClosed (p : Prompt) (response : Z)
| CheckRejected (err : Js.Error)
| FlaskStdout (data : string)
| FlaskStderr (data : string)
| FlaskError (err : Js.Error)
| Ipc (channel : string) (arg : string)
| WindowAllClosed
| Activate (open_windows : nat)
| BeforeQuit.

Definition when_flask (m : M unit) : M unit :=
  h <- get_host ;;
  match flaskProcess h with
  | Some _ => m
  | None => ret tt
  end.

Definition step (i : Input) : M unit :=
  match i with
  | AppReady => createWindow
  | HourlyTick => hourly_tick
  | Updater e => autoUpdater_emit e
  | MessageBoxClosed DownloadPrompt response => download_prompt_then response
  | MessageBoxClosed InstallPrompt response => install_prompt_then response
  | CheckRejected err => checkForUpdates_catch err
  | FlaskStdout data => when_flask (flask_on_stdout data)
  | FlaskStderr data => when_flask (flask_on_stderr data)
  | FlaskError err => when_flask (flask_on_error err)
  | Ipc channel arg => _ <- ipc_handle channel arg ;; ret tt
  | WindowAllClosed => on_window_all_closed
  | Activate n => on_activate n
  | BeforeQuit => on_before_quit
  end.

(** One turn of the loop: a callback that throws leaves the host where
    the throw found it, and the loop goes on. *)
Fixpoint run (inputs : list Input) (h : Host) : list Effect * Host :=
  match inputs with
  | [] => ([], h)
  | i :: rest =>
      let o := step i h in
      let '(fx, h') := run rest (host o) in
      ((effects o ++ fx)%list, h')
  end.

End Main.

Definition initial_host : Host :=
  {| mainWindow := None; flaskProcess := None |}.


(* ================================================================== *)
(** ** Observing a run *)
(* ================================================================== *)

Definition count (f : Effect -> bool) (fx : list Effect) : nat :=
  length (filter f fx).

Definition is_check (fx : Effect) : bool :=
  match fx with UpdaterCheckForUpdates _ => true | _ => false end.

Definition is_download (fx : Effect) : bool :=
  match fx with UpdaterDownloadUpdate => true | _ => false end.

Definition is_quit_and_install (fx : Effect) : bool :=
  match fx with UpdaterQuitAndInstall => true | _ => false end.

Definition is_spawn (fx : Effect) : bool :=
  match fx with Spawn _ => true | _ => false end.

Definition is_error_box (fx : Effect) : bool :=
  match fx with ShowErrorBox _ _ => true | _ => false end.

(** A computation none of whose effects satisfies [f], from any host. *)
Definition emits_none {A} (f : Effect -> bool) (m : M A) : Prop :=
  forall h, count f (effects (m h)) = 0.

(** The user pressing "Yes" (button 0) on the download prompt. *)
Definition accepts_download (i : Input) : bool :=
  match i with
  | MessageBoxClosed DownloadPrompt response => (response =? 0)%Z
  | _ => false
  end.

(** The update status of the specification's state machine.  main.js
    stores no such state; this is the status an observer derives from the
    notifications of the updater and from the answers to the download
    prompt. *)
Inductive UpdateStatus : Type :=
| Idle | Checking | Available | Downloading | Downloaded
| UpdateError | NotAvailable.

Definition spec_status_step (s : UpdateStatus) (i : Input) : UpdateStatus :=
  match i with
  | Updater CheckingForUpdate => Checking
  | Updater (UpdateAvailable _) => Available
  | Updater (UpdateNotAvailable _) => NotAvailable
  | Updater (UpdaterError _) => UpdateError
  | Updater (DownloadProgress _) => Downloading
  | Updater (UpdateDownloaded _) => Downloaded
  | MessageBoxClosed DownloadPrompt response =>
      if (response =? 0)%Z then Downloading else Idle
  | _ => s
  end.

Definition spec_status (inputs : list Input) : UpdateStatus :=
  fold_left spec_status_step inputs Idle.

(** The replies of [analyze-file], as the UI tells them apart
    ([result.success]). *)
Definition failure_reply (msg : string) : Js.value :=
  Js.Obj [("success", Js.Bool false); ("error", Js.Str msg)].


(* ================================================================== *)
(** ** Example runtimes *)
(* ================================================================== *)

(** [path.posix.basename] without a suffix: trailing slashes are dropped,
    then the part after the last slash is kept. *)
Fixpoint drop_slashes (cs : list ascii) : list ascii :=
  match cs with
  | c :: rest => if Ascii.eqb c "/" then drop_slashes rest else cs
  | [] => []
  end.

Fixpoint last_segment (cs : list ascii) : list ascii :=
  match cs with
  | c :: rest => if Ascii.eqb c "/" then [] else c :: last_segment rest
  | [] => []
  end.

Definition posix_basename (p : string) : string :=
  string_of_list_ascii
    (rev (last_segment (drop_slashes (rev (list_ascii_of_string p))))).

(** [path.posix.join] on segments that need no normalising. *)
Definition posix_join (parts : list string) : string :=
  String.concat "/" parts.

Definition example_disk (p : string) : FsEntry :=
  if p =? "/data/sample.ide" then File (repeat Byte.x00 1024) 1700000000000
  else if p =? "/data/locked.ide" then NoAccess
  else NoEntry.

Definition ECONNREFUSED : Js.Error :=
  {| Js.name := "AxiosError";
     Js.message := "connect ECONNREFUSED 127.0.0.1:5000";
     Js.code := Some "ECONNREFUSED" |}.

Definition example_sidecar (url file : string) : PostOutcome :=
  if negb (url =? analyze_url) then Rejected ECONNREFUSED
  else if file =? "/data/sample.ide" then
    Resolved (Js.Obj [("success", Js.Bool true);
                      ("reportPath", Js.Str "/reports/sample.html")])
  else if file =? "/data/x.ide" then
    Resolved (Js.Obj [("success", Js.Bool true); ("reportPath", Js.Str "X")])
  else if file =? "/data/bad.ide" then
    Resolved (Js.Obj [("success", Js.Bool false);
                      ("error", Js.Str "bad format")])
  else if file =? "/data/quiet.ide" then
    Resolved (Js.Obj [("success", Js.Bool false)])
  else if file =? "/data/garbled.ide" then
    Resolved (Js.Str "<html>Internal Server Error</html>")
  else if file =? "/data/silent.ide" then
    Rejected {| Js.name := "Error"; Js.message := ""; Js.code := None |}
  else Rejected ECONNREFUSED.

(** A packaged Linux install whose bundled interpreter is missing. *)
Definition packaged_linux : Runtime :=
  {| NODE_ENV := None;
     platform := "linux";
     resourcesPath := Some "/opt/VibeCheck Pro/resources";
     dirname := "/opt/VibeCheck Pro/resources/app";
     path_join := posix_join;
     path_basename := posix_basename;
     fs_entry := example_disk;
     axios_post := example_sidecar;
     showOpenDialog := {| canceled := false;
                          filePaths := ["/data/sample.ide"] |} |}.

(** [npm run dev] on Windows. *)
Definition dev_windows : Runtime :=
  {| NODE_ENV := Some "development";
     platform := "win32";
     resourcesPath := None;
     dirname := "C:/vibecheck-pro";
     path_join := String.concat (String (ascii_of_nat 92) EmptyString);
     path_basename := posix_basename;
     fs_entry := fun _ => NoEntry;
     axios_post := example_sidecar;
     showOpenDialog := {| canceled := true; filePaths := [] |} |}.

Definition the_window : BrowserWindow := Window 1000 800 800 600.

Definition running_host : Host :=
  {| mainWindow := Some the_window; flaskProcess := None |}.

Definition release_1_0_1 : UpdateInfo := {| version := "1.0.1" |}.

(** A run that has reached the download of an update. *)
Definition until_downloading : list Input :=
  [AppReady;
   Updater CheckingForUpdate;
   Updater (UpdateAvailable release_1_0_1);
   MessageBoxClosed DownloadPrompt 0;
   Updater (DownloadProgress (Js.Obj [("percent", Js.Num (inject_Z 40))]))].

(** A run in which an update has just been downloaded; the install
    prompt has not been answered. *)
Definition until_downloaded : list Input :=
  until_downloading ++ [Updater (UpdateDownloaded release_1_0_1)].

(** A run in which the first check is still under way. *)
Definition until_checking : list Input :=
  [AppReady; Updater CheckingForUpdate].

(* ================================================================== *)
(** ** Further observations on a run *)
(* ================================================================== *)

Definition is_kill (fx : Effect) : bool :=
  match fx with Kill _ => true | _ => false end.

Definition is_prompt (p : Prompt) (fx : Effect) : bool :=
  match fx, p with
  | ShowMessageBox DownloadPrompt _ _ _ _, DownloadPrompt => true
  | ShowMessageBox InstallPrompt _ _ _ _, InstallPrompt => true
  | _, _ => false
  end.




(** The inputs whose callback is [createWindow]. *)
Definition opens_window (i : Input) : bool :=
  match i with
  | AppReady => true
  | Activate open_windows => Nat.eqb open_windows 0
  | _ => false
  end.

(** The inputs whose callback asks the updater for a check. *)
Definition asks_for_check (i : Input) : bool :=
  match i with
  | HourlyTick => true
  | _ => opens_window i
  end.

(** The updater event that a prompt belongs to. *)
Definition announces (p : Prompt) (i : Input) : bool :=
  match i, p with
  | Updater (UpdateAvailable _), DownloadPrompt => true
  | Updater (UpdateDownloaded _), InstallPrompt => true
  | _, _ => false
  end.

(** The inputs whose callbacks contain a call of [quitAndInstall]. *)
Definition may_install (i : Input) : bool :=
  match i with
  | Updater (UpdateDownloaded _) => true
  | MessageBoxClosed InstallPrompt response => (response =? 0)%Z
  | _ => false
  end.

Definition is_before_quit (i : Input) : bool :=
  match i with BeforeQuit => true | _ => false end.

(** The child [startFlaskServer] spawns for an interpreter. *)
Definition flask_child (rt : Runtime) (pythonPath : string) : ChildProcess :=
  {| command := pythonPath;
     args := [path_join rt [dirname rt; "flask_server.py"]];
     env_overlay := [("PYTHONPATH", path_join rt [dirname rt])] |}.

(** What [getPythonPath] comes to; it reads nothing of the host. *)
Definition resolved_python (rt : Runtime) : Completion string :=
  completion (getPythonPath rt initial_host).

(** Every child killed so far had been spawned before; [seen] holds the
    children spawned earlier. *)
Fixpoint kills_follow_spawns (seen : list ChildProcess) (fx : list Effect)
  : Prop :=
  match fx with
  | [] => True
  | Spawn child :: rest => kills_follow_spawns (child :: seen) rest
  | Kill child :: rest => In child seen /\ kills_follow_spawns seen rest
  | _ :: rest => kills_follow_spawns seen rest
  end.

Fixpoint spawned (fx : list Effect) : list ChildProcess :=
  match fx with
  | [] => []
  | Spawn child :: rest => child :: spawned rest
  | _ :: rest => spawned rest
  end.

(** A computation that hands the host back as it got it. *)
Definition keeps_host {A} (m : M A) : Prop :=
  forall h, host (m h) = h.

(** A macOS development run: the interpreter is found on the PATH. *)
Definition dev_macos : Runtime :=
  {| NODE_ENV := Some "development";
     platform := "darwin";
     resourcesPath := None;
     dirname := "/Users/dev/vibecheck-pro";
     path_join := posix_join;
     path_basename := posix_basename;
     fs_entry := example_disk;
     axios_post := example_sidecar;
     showOpenDialog := {| canceled := true;
                          filePaths := ["/data/sample.ide"] |} |}.

(** The packaged install with the sidecar answering every upload in the
    same way. *)
Definition packaged_linux_answering (answer : PostOutcome) : Runtime :=
  {| NODE_ENV := NODE_ENV packaged_linux;
     platform := platform packaged_linux;
     resourcesPath := resourcesPath packaged_linux;
     dirname := dirname packaged_linux;
     path_join := path_join packaged_linux;
     path_basename := path_basename packaged_linux;
     fs_entry := fs_entry packaged_linux;
     axios_post := fun _ _ => answer;
     showOpenDialog := showOpenDialog packaged_linux |}.

(** The sidecar is not listening. *)
Definition sidecar_down : Runtime :=
  packaged_linux_answering (Rejected ECONNREFUSED).


(** The sidecar reports a failure whose [error] is an empty list. *)
Definition sidecar_listing : Runtime :=
  packaged_linux_answering
    (Resolved (Js.Obj [("success", Js.Bool false); ("error", Js.Arr [])])).

(* ================================================================== *)
(** ** The release script *)
(* ================================================================== *)

(** What a directory holds: files with their contents and directories
    with their entries, an entry being a name and what it names. *)
Inductive Node : Type :=
| FileNode (content : string)
| DirNode (entries : list (string * Node)).

Definition Entries : Type := list (string * Node).

Fixpoint starts_with (p s : list ascii) : bool :=
  match p, s with
  | [], _ => true
  | a :: p', b :: s' => Ascii.eqb a b && starts_with p' s'
  | _ :: _, [] => false
  end.

(** [s.endsWith(suffix)], which is also what [/suffix$/.test(s)] asks
    when the pattern is a literal. *)
Definition ends_with (suffix s : string) : bool :=
  starts_with (rev (list_ascii_of_string suffix))
              (rev (list_ascii_of_string s)).

(** ["tests", "__tests__", "scripts", ".vscode"].includes(item) *)
Definition is_dev_dir (item : string) : bool :=
  existsb (String.eqb item) ["tests"; "__tests__"; "scripts"; ".vscode"].

(** /\.spec\.js$/, /\.test\.js$/ and /\.ts$/ *)
Definition is_dev_file (item : string) : bool :=
  ends_with ".spec.js" item || ends_with ".test.js" item
  || ends_with ".ts" item.

(** The loop of [removeDevFiles] over the names read from a directory;
    [recur] is the call on a subdirectory. *)
Definition sweep (recur : Node -> Node) : Entries -> Entries :=
  fix each (items : Entries) : Entries :=
    match items with
    | [] => []
    | (item, child) :: rest =>
        match child with
        | DirNode _ =>
            if is_dev_dir item then each rest
            else (item, recur child) :: each rest
        | FileNode _ =>
            if is_dev_file item then each rest
            else (item, child) :: each rest
        end
    end.

(** [removeDevFiles] on a subdirectory, as the directory it leaves. *)
Fixpoint removeDevFiles_in (dir : Node) : Node :=
  match dir with
  | DirNode entries => DirNode (sweep removeDevFiles_in entries)
  | FileNode content => FileNode content
  end.

(** [removeDevFiles(dir)]: the entries of [dir] before and after. *)
Definition removeDevFiles (entries : Entries) : Entries :=
  sweep removeDevFiles_in entries.

(** Every file under a directory: the directories leading to it, its
    name and its content. *)
Fixpoint files_in (n : Node) (name : string)
  : list (list string * string * string) :=
  match n with
  | FileNode content => [([], name, content)]
  | DirNode entries =>
      map (fun f => (name :: fst (fst f), snd (fst f), snd f))
          (flat_map (fun e => files_in (snd e) (fst e)) entries)
  end.

Definition files_of (entries : Entries)
  : list (list string * string * string) :=
  flat_map (fun e => files_in (snd e) (fst e)) entries.

(** Every directory under a directory, as the path leading to it. *)
Fixpoint dirs_in (n : Node) (name : string) : list (list string) :=
  match n with
  | FileNode _ => []
  | DirNode entries =>
      [name]
        :: map (cons name)
             (flat_map (fun e => dirs_in (snd e) (fst e)) entries)
  end.

Definition dirs_of (entries : Entries) : list (list string) :=
  flat_map (fun e => dirs_in (snd e) (fst e)) entries.

(** A file seen from one directory up. *)
Definition under (item : string) (f : list string * string * string)
  : list string * string * string :=
  (item :: fst (fst f), snd (fst f), snd f).

(** The files [removeDevFiles] is meant to leave. *)
Definition survives (f : list string * string * string) : bool :=
  forallb (fun d => negb (is_dev_dir d)) (fst (fst f))
  && negb (is_dev_file (snd (fst f))).

Definition dir_survives (path : list string) : bool :=
  forallb (fun d => negb (is_dev_dir d)) path.

(** A small project tree. *)
Definition example_tree : Entries :=
  [("main.js", FileNode "app");
   ("main.test.js", FileNode "test");
   ("types.d.ts", FileNode "decl");
   ("tests", DirNode [("sample.ide", FileNode "data")]);
   ("tests.txt", FileNode "notes");
   ("vibecheck",
    DirNode [("flask_server.py", FileNode "server");
             ("scripts", DirNode [("run.py", FileNode "run")]);
             ("model.ts", DirNode [("weights.bin", FileNode "w")]);
             ("empty", DirNode [("a.spec.js", FileNode "spec")])])].

(* ================================================================== *)
(** ** The release script: building the release directory *)
(* ================================================================== *)

(** Why a call of [fs] or [JSON] throws, by its error code. *)
Inductive Fault : Type :=
| EEXIST_file_exists
| EISDIR_is_a_directory
| ENOTDIR_not_a_directory
| ENOENT_no_such_file
| SyntaxError_bad_json (e : Js.Error)
| TypeError_null_json.

Fixpoint lookup_entry (name : string) (entries : Entries) : option Node :=
  match entries with
  | [] => None
  | (name', n) :: rest =>
      if name =? name' then Some n else lookup_entry name rest
  end.

(** The directory once [name] names [n]: in place when the name was
    there, as a new entry otherwise. *)
Fixpoint put_entry (name : string) (n : Node) (entries : Entries) : Entries :=
  match entries with
  | [] => [(name, n)]
  | (name', n') :: rest =>
      if name =? name' then (name, n) :: rest
      else (name', n') :: put_entry name n rest
  end.

(** [fs.rmSync(path, { recursive: true, force: true })] *)
Definition remove_entry (name : string) (entries : Entries) : Entries :=
  filter (fun e => negb (fst e =? name)) entries.

(** [fs.mkdirSync(dest, { recursive: true })]: the entries of [dest]
    afterwards. *)
Definition mkdir_recursive (dest : option Node) : Fault + Entries :=
  match dest with
  | None => inr []
  | Some (DirNode entries) => inr entries
  | Some (FileNode _) => inl EEXIST_file_exists
  end.

(** [fs.copyFileSync] into the directory [dest], under [name]. *)
Definition copyFileSync (content : string) (name : string) (dest : Entries)
  : Fault + Entries :=
  match lookup_entry name dest with
  | Some (DirNode _) => inl EISDIR_is_a_directory
  | _ => inr (put_entry name (FileNode content) dest)
  end.

(** The loop of [copyDir] over the names read from the source, with the
    entries of the destination as they grow; [recur] is the call on a
    subdirectory. *)
Definition copy_loop (recur : Node -> option Node -> Fault + Node)
  : Entries -> Entries -> Fault + Entries :=
  fix each (items dest : Entries) : Fault + Entries :=
    match items with
    | [] => inr dest
    | (item, child) :: rest =>
        match child with
        | DirNode _ =>
            match recur child (lookup_entry item dest) with
            | inl fault => inl fault
            | inr copied => each rest (put_entry item copied dest)
            end
        | FileNode content =>
            match copyFileSync content item dest with
            | inl fault => inl fault
            | inr dest' => each rest dest'
            end
        end
    end.

(** [copyDir(src, dest)] for a source that exists: the destination it
    leaves.  The source and the destination are two trees; the script
    only copies from an item of the project into the release directory,
    which is no part of that item. *)
Fixpoint copyDir (src : Node) (dest : option Node) : Fault + Node :=
  match src with
  | DirNode entries =>
      match mkdir_recursive dest with
      | inl fault => inl fault
      | inr made =>
          match copy_loop copyDir entries made with
          | inl fault => inl fault
          | inr filled => inr (DirNode filled)
          end
      end
  | FileNode _ =>
      match mkdir_recursive dest with
      | inl fault => inl fault
      | inr _ => inl ENOTDIR_not_a_directory
      end
  end.

(** [copy(src, dest)] with [dest] the name [name] in a directory that
    exists: the entries of that directory afterwards. *)
Definition copy (src : option Node) (name : string) (parent : Entries)
  : Fault + Entries :=
  match src with
  | None => inr parent
  | Some (DirNode entries) =>
      match copyDir (DirNode entries) (lookup_entry name parent) with
      | inl fault => inl fault
      | inr copied => inr (put_entry name copied parent)
      end
  | Some (FileNode content) => copyFileSync content name parent
  end.

(** [JSON.parse] and [JSON.stringify(value, null, 2)]. *)
Record Json : Type := {
  JSON_parse : string -> Js.Error + Js.value;
  JSON_stringify : Js.value -> string
}.

(** [delete value[key]] *)
Definition delete_property (key : string) (v : Js.value)
  : Fault + Js.value :=
  match v with
  | Js.Undefined | Js.Null => inl TypeError_null_json
  | Js.Obj props =>
      inr (Js.Obj (filter (fun e => negb (fst e =? key)) props))
  | _ => inr v
  end.

Definition cleanPackageJson (j : Json) (cwd destDir : Entries)
  : Fault + Entries :=
  match lookup_entry "package.json" cwd with
  | None => inl ENOENT_no_such_file
  | Some (DirNode _) => inl EISDIR_is_a_directory
  | Some (FileNode text) =>
      match JSON_parse j text with
      | inl e => inl (SyntaxError_bad_json e)
      | inr pkg =>
          match delete_property "devDependencies" pkg with
          | inl fault => inl fault
          | inr pkg' =>
              match lookup_entry "package.json" destDir with
              | Some (DirNode _) => inl EISDIR_is_a_directory
              | _ =>
                  inr (put_entry "package.json"
                         (FileNode (JSON_stringify j pkg')) destDir)
              end
          end
      end
  end.

Definition runtimeItems : list string :=
  ["dist"; "index.html"; "main.js"; "assets"; "vibecheck"; "user_guide.html"].

(** [if (fs.existsSync(item)) copy(item, path.join(releaseDir, item))],
    one item after the other. *)
Fixpoint copy_items (cwd : Entries) (items : list string) (release : Entries)
  : Fault + Entries :=
  match items with
  | [] => inr release
  | item :: rest =>
      match copy (lookup_entry item cwd) item release with
      | inl fault => inl fault
      | inr release' => copy_items cwd rest release'
      end
  end.

(** [createRelease()]: the working directory before and after.  A throw
    ends the script; what it has written by then is not described. *)
Definition createRelease (j : Json) (project : Entries) : Fault + Entries :=
  let cwd := remove_entry "release" project in
  match copy_items cwd (runtimeItems ++ ["README.md"; "LICENSE"]) [] with
  | inl fault => inl fault
  | inr copied =>
      match cleanPackageJson j cwd copied with
      | inl fault => inl fault
      | inr release =>
          inr (cwd ++ [("release", DirNode (removeDevFiles release))])%list
      end
  end.

(** No directory holds a name twice. *)
Fixpoint unique_names (n : Node) : Prop :=
  match n with
  | FileNode _ => True
  | DirNode entries =>
      NoDup (map fst entries)
      /\ (fix each (es : Entries) : Prop :=
            match es with
            | [] => True
            | e :: rest => unique_names (snd e) /\ each rest
            end) entries
  end.

Definition shipped_names : list string :=
  runtimeItems ++ ["README.md"; "LICENSE"; "package.json"].

(** A project with sources, tests, and the remains of an older
    release. *)
Definition example_project : Entries :=
  [("main.js", FileNode "app");
   ("index.html", FileNode "page");
   ("package.json", FileNode "{pkg}");
   ("node_modules", DirNode [("electron", DirNode [])]);
   ("tests", DirNode [("sample.ide", FileNode "data")]);
   ("release", DirNode [("stale.txt", FileNode "old")]);
   ("vibecheck",
    DirNode [("flask_server.py", FileNode "server");
             ("tests", DirNode [("test_api.py", FileNode "t")])]);
   ("README.md", FileNode "readme")].

(** A codec that knows the one package file of the example. *)
Definition example_json : Json :=
  {| JSON_parse := fun text =>
       if text =? "{pkg}" then
         inr (Js.Obj [("name", Js.Str "vibecheck-pro");
                      ("devDependencies", Js.Obj [("eslint", Js.Str "^8")]);
                      ("main", Js.Str "main.js")])
       else inl {| Js.name := "SyntaxError";
                   Js.message := "Unexpected token";
                   Js.code := None |};
     JSON_stringify := fun v =>
       match v with
       | Js.Obj props => String.concat "," (map fst props)
       | _ => "?"
       end |}.

(* ================================================================== *)
(** ** The page (the script of index.html) *)
(* ================================================================== *)

(** The parts of the document the script writes to: [style.display],
    [className] and [textContent] of the elements it looked up, each as
    the value last assigned. *)
Record Page : Type := {
  status_display : string;
  error_display : string;
  error_className : string;
  error_text : Js.value;
  fileInfo_display : string;
  fileName_text : Js.value;
  fileSize_text : string;
  progressBar_display : string;
  progressBarFill_width : string;
  dropZone_dragover : bool
}.

(** What the script asks of the outside. *)
Inductive Call : Type :=
| Invoke (channel : string) (arg : Js.value)
| SetInterval (ms : Z).

(** What the outside answers: how each [ipcRenderer.invoke] settles,
    the floating-point branch of [formatFileSize]
    ([parseFloat((bytes / Math.pow(k, i)).toFixed(2)) + ' ' + sizes[i]]),
    and the text a template literal makes of a value that is neither a
    string, a boolean, null nor undefined. *)
Record Browser : Type := {
  invoke : string -> Js.value -> Js.Error + Js.value;
  scaled_size : Js.value -> string;
  text_of_other : Js.value -> string
}.

Record Rendered (A : Type) : Type := mkRendered {
  calls : list Call;
  page : Page;
  outcome : Completion A
}.
Arguments mkRendered {A}.
Arguments calls {A}.
Arguments page {A}.
Arguments outcome {A}.

Definition R (A : Type) : Type := Page -> Rendered A.

Definition rret {A} (a : A) : R A :=
  fun p => mkRendered [] p (Normal a).

Definition rthrow {A} (e : Js.Error) : R A :=
  fun p => mkRendered [] p (Throw e).

Definition rbind {A B} (m : R A) (k : A -> R B) : R B :=
  fun p =>
    let o := m p in
    match outcome o with
    | Normal a =>
        let o' := k a (page o) in
        mkRendered (calls o ++ calls o') (page o') (outcome o')
    | Throw e => mkRendered (calls o) (page o) (Throw e)
    end.

(** [try { m } catch (err) { handler err }] *)
Definition rtry {A} (m : R A) (handler : Js.Error -> R A) : R A :=
  fun p =>
    let o := m p in
    match outcome o with
    | Normal a => o
    | Throw e =>
        let o' := handler e (page o) in
        mkRendered (calls o ++ calls o') (page o') (outcome o')
    end.

(** [try { m } finally { cleanup }], with a [cleanup] that completes
    normally. *)
Definition rfinally {A} (m : R A) (cleanup : R unit) : R A :=
  fun p =>
    let o := m p in
    let o' := cleanup (page o) in
    mkRendered (calls o ++ calls o') (page o')
      match outcome o' with
      | Normal _ => outcome o
      | Throw e => Throw e
      end.

Definition rcall (c : Call) : R unit :=
  fun p => mkRendered [c] p (Normal tt).

Definition assign (f : Page -> Page) : R unit :=
  fun p => mkRendered [] (f p) (Normal tt).

Definition rawait {A} (r : Js.Error + A) : R A :=
  match r with
  | inl e => rthrow e
  | inr a => rret a
  end.

Declare Scope page_scope.
Delimit Scope page_scope with page.
Notation "x <- m ;; k" := (rbind m (fun x => k))
  (at level 61, m at next level, right associativity) : page_scope.
Notation "m ;; k" := (rbind m (fun _ => k))
  (at level 61, right associativity) : page_scope.

Definition set_status_display (v : string) (p : Page) : Page :=
  {| status_display := v;
     error_display := error_display p;
     error_className := error_className p;
     error_text := error_text p;
     fileInfo_display := fileInfo_display p;
     fileName_text := fileName_text p;
     fileSize_text := fileSize_text p;
     progressBar_display := progressBar_display p;
     progressBarFill_width := progressBarFill_width p;
     dropZone_dragover := dropZone_dragover p |}.

Definition set_error_display (v : string) (p : Page) : Page :=
  {| status_display := status_display p;
     error_display := v;
     error_className := error_className p;
     error_text := error_text p;
     fileInfo_display := fileInfo_display p;
     fileName_text := fileName_text p;
     fileSize_text := fileSize_text p;
     progressBar_display := progressBar_display p;
     progressBarFill_width := progressBarFill_width p;
     dropZone_dragover := dropZone_dragover p |}.

Definition set_error_className (v : string) (p : Page) : Page :=
  {| status_display := status_display p;
     error_display := error_display p;
     error_className := v;
     error_text := error_text p;
     fileInfo_display := fileInfo_display p;
     fileName_text := fileName_text p;
     fileSize_text := fileSize_text p;
     progressBar_display := progressBar_display p;
     progressBarFill_width := progressBarFill_width p;
     dropZone_dragover := dropZone_dragover p |}.

Definition set_error_text (v : Js.value) (p : Page) : Page :=
  {| status_display := status_display p;
     error_display := error_display p;
     error_className := error_className p;
     error_text := v;
     fileInfo_display := fileInfo_display p;
     fileName_text := fileName_text p;
     fileSize_text := fileSize_text p;
     progressBar_display := progressBar_display p;
     progressBarFill_width := progressBarFill_width p;
     dropZone_dragover := dropZone_dragover p |}.

Definition set_fileInfo_display (v : string) (p : Page) : Page :=
  {| status_display := status_display p;
     error_display := error_display p;
     error_className := error_className p;
     error_text := error_text p;
     fileInfo_display := v;
     fileName_text := fileName_text p;
     fileSize_text := fileSize_text p;
     progressBar_display := progressBar_display p;
     progressBarFill_width := progressBarFill_width p;
     dropZone_dragover := dropZone_dragover p |}.

Definition set_fileName_text (v : Js.value) (p : Page) : Page :=
  {| status_display := status_display p;
     error_display := error_display p;
     error_className := error_className p;
     error_text := error_text p;
     fileInfo_display := fileInfo_display p;
     fileName_text := v;
     fileSize_text := fileSize_text p;
     progressBar_display := progressBar_display p;
     progressBarFill_width := progressBarFill_width p;
     dropZone_dragover := dropZone_dragover p |}.

Definition set_fileSize_text (v : string) (p : Page) : Page :=
  {| status_display := status_display p;
     error_display := error_display p;
     error_className := error_className p;
     error_text := error_text p;
     fileInfo_display := fileInfo_display p;
     fileName_text := fileName_text p;
     fileSize_text := v;
     progressBar_display := progressBar_display p;
     progressBarFill_width := progressBarFill_width p;
     dropZone_dragover := dropZone_dragover p |}.

Definition set_progressBar_display (v : string) (p : Page) : Page :=
  {| status_display := status_display p;
     error_display := error_display p;
     error_className := error_className p;
     error_text := error_text p;
     fileInfo_display := fileInfo_display p;
     fileName_text := fileName_text p;
     fileSize_text := fileSize_text p;
     progressBar_display := v;
     progressBarFill_width := progressBarFill_width p;
     dropZone_dragover := dropZone_dragover p |}.

Definition set_progressBarFill_width (v : string) (p : Page) : Page :=
  {| status_display := status_display p;
     error_display := error_display p;
     error_className := error_className p;
     error_text := error_text p;
     fileInfo_display := fileInfo_display p;
     fileName_text := fileName_text p;
     fileSize_text := fileSize_text p;
     progressBar_display := progressBar_display p;
     progressBarFill_width := v;
     dropZone_dragover := dropZone_dragover p |}.

Definition set_dropZone_dragover (v : bool) (p : Page) : Page :=
  {| status_display := status_display p;
     error_display := error_display p;
     error_className := error_className p;
     error_text := error_text p;
     fileInfo_display := fileInfo_display p;
     fileName_text := fileName_text p;
     fileSize_text := fileSize_text p;
     progressBar_display := progressBar_display p;
     progressBarFill_width := progressBarFill_width p;
     dropZone_dragover := v |}.


Section Script.

Variable b : Browser.

(** The text a template literal makes of a value. *)
Definition template_text (v : Js.value) : string :=
  match v with
  | Js.Str s => s
  | Js.Undefined => "undefined"
  | Js.Null => "null"
  | Js.Bool true => "true"
  | Js.Bool false => "false"
  | _ => text_of_other b v
  end.

Definition formatFileSize (bytes : Js.value) : string :=
  match bytes with
  | Js.Num q => if (Qnum q =? 0)%Z then "0 Bytes" else scaled_size b bytes
  | _ => scaled_size b bytes
  end.

Definition showError (message : Js.value) (type : string) : R unit :=
  (assign (set_error_display "block") ;;
   assign (set_error_text message) ;;
   if type =? "success"
   then assign (set_error_className "error success")
   else assign (set_error_className "error"))%page.

(** The page [showError] leaves. *)
Definition banner (message : Js.value) (type : string) (p : Page) : Page :=
  set_error_className (if type =? "success" then "error success" else "error")
    (set_error_text message (set_error_display "block" p)).

(** The page the [finally] block leaves. *)
Definition tidied (p : Page) : Page :=
  set_progressBarFill_width "0%"
    (set_progressBar_display "none" (set_status_display "none" p)).

Definition ipcRenderer_invoke (channel : string) (arg : Js.value)
  : R Js.value :=
  (rcall (Invoke channel arg) ;; rawait (invoke b channel arg))%page.

(** The end of the [try] block of [handleFile], from the reply of
    analyze-file on. *)
Definition report_result (result : Js.value) : R unit :=
  (success <- rawait (Js.get result "success") ;;
   if Js.truthy success then
     path <- rawait (Js.get result "path") ;;
     showError
       (Js.Str ("Analysis complete! Report saved to: "
                ++ template_text path))
       "success"
   else
     error <- rawait (Js.get result "error") ;;
     showError error "error")%page.

(** The [try] block of [handleFile]. *)
Definition handleFile_try (filePath : Js.value) : R unit :=
  (assign (set_status_display "block") ;;
   assign (set_error_display "none") ;;
   assign (set_progressBar_display "block") ;;
   file <- ipcRenderer_invoke "get-file-info" filePath ;;
   name <- rawait (Js.get file "name") ;;
   assign (set_fileName_text name) ;;
   size <- rawait (Js.get file "size") ;;
   assign (set_fileSize_text (formatFileSize size)) ;;
   assign (set_fileInfo_display "block") ;;
   rcall (SetInterval 200) ;;
   result <- ipcRenderer_invoke "analyze-file" filePath ;;
   report_result result)%page.

(** The page once [handleFile] has begun. *)
Definition started (p : Page) : Page :=
  set_progressBar_display "block"
    (set_error_display "none" (set_status_display "block" p)).

(** The page once the file panel has been filled in. *)
Definition with_file_panel (name size : Js.value) (p : Page) : Page :=
  set_fileInfo_display "block"
    (set_fileSize_text (formatFileSize size) (set_fileName_text name p)).

(** The [finally] block of [handleFile]. *)
Definition handleFile_finally : R unit :=
  (assign (set_status_display "none") ;;
   assign (set_progressBar_display "none") ;;
   assign (set_progressBarFill_width "0%"))%page.

Definition handleFile (filePath : Js.value) : R unit :=
  rfinally
    (rtry (handleFile_try filePath)
          (fun err => showError (Js.Str (Js.message err)) "error"))
    handleFile_finally.

(* selectFileBtn.addEventListener('click', ...) *)
Definition on_select_click : R unit :=
  (filePath <- ipcRenderer_invoke "select-file" Js.Undefined ;;
   if Js.truthy filePath then handleFile filePath else rret tt)%page.

(* dropZone.addEventListener('dragover', ...) *)
Definition on_dragover : R unit := assign (set_dropZone_dragover true).

(* dropZone.addEventListener('dragleave', ...) *)
Definition on_dragleave : R unit := assign (set_dropZone_dragover false).


End Script.

(** The callback of the interval [handleFile] starts, on its variable
    [progress]: the new value, the width it writes to the bar, and
    whether it clears the interval. *)
Definition progress_tick (progress : Z) : Z * string * bool :=
  let progress' := (progress + 5)%Z in
  (progress',
   NilZero.string_of_int (Z.to_int progress') ++ "%",
   (100 <=? progress')%Z).

(** The interval from its start: the widths written by its first [n]
    callbacks, as long as it has not been cleared. *)
Fixpoint interval_widths (n : nat) (progress : Z) : list string :=
  match n with
  | O => []
  | S n' =>
      let '(progress', width, cleared) := progress_tick progress in
      width :: (if cleared then [] else interval_widths n' progress')
  end.

(** How a page sees the handlers of main.js: an [invoke] with a path
    settles as the handler completes, a thrown error arriving as the
    error [remote channel e] that Electron makes of it; [select-file]
    is invoked without an argument. *)
Definition served_by (b : Browser) (rt : Runtime) (h : Host)
           (remote : string -> Js.Error -> Js.Error) : Prop :=
  (forall channel path,
      invoke b channel (Js.Str path) =
        match completion (ipc_handle rt channel path h) with
        | Normal v => inr v
        | Throw e => inl (remote channel e)
        end)
  /\ invoke b "select-file" Js.Undefined =
       match completion (select_file rt h) with
       | Normal v => inr v
       | Throw e => inl (remote "select-file" e)
       end.

(** Electron's wording of an error thrown by a handler. *)
Definition electron_remote (channel : string) (e : Js.Error) : Js.Error :=
  new_Error ("Error invoking remote method '" ++ channel ++ "': "
             ++ Js.name e ++ ": " ++ Js.message e).

(** A page in front of the example runtime. *)
Definition example_browser (rt : Runtime) : Browser :=
  {| invoke := fun channel arg =>
       match arg with
       | Js.Str path =>
           match completion (ipc_handle rt channel path running_host) with
           | Normal v => inr v
           | Throw e => inl (electron_remote channel e)
           end
       | _ =>
           match completion (ipc_handle rt channel "" running_host) with
           | Normal v => inr v
           | Throw e => inl (electron_remote channel e)
           end
       end;
     scaled_size := fun _ => "1 KB";
     text_of_other := fun _ => "[object Object]" |}.

Definition blank_page : Page :=
  {| status_display := "none";
     error_display := "none";
     error_className := "error";
     error_text := Js.Str "";
     fileInfo_display := "none";
     fileName_text := Js.Str "";
     fileSize_text := "";
     progressBar_display := "none";
     progressBarFill_width := "0%";
     dropZone_dragover := false |}.

(* ================================================================== *)
(** ** Equations of the monad *)
(* ================================================================== *)

Section Equations.

Context {A B : Type}.

Lemma bind_normal (m : M A) (k : A -> M B) (h h' : Host)
      (fx : list Effect) (a : A) :
  m h = mkOutcome fx h' (Normal a) ->
  bind m k h =
    mkOutcome (fx ++ effects (k a h')) (host (k a h')) (completion (k a h')).
Proof. intros H. unfold bind. rewrite H. reflexivity. Qed.

Lemma bind_throw (m : M A) (k : A -> M B) (h h' : Host)
      (fx : list Effect) (e : Js.Error) :
  m h = mkOutcome fx h' (Throw e) ->
  bind m k h = mkOutcome fx h' (Throw e).
Proof. intros H. unfold bind. rewrite H. reflexivity. Qed.

Lemma try_catch_normal (m : M A) (handler : Js.Error -> M A) (h h' : Host)
      (fx : list Effect) (a : A) :
  m h = mkOutcome fx h' (Normal a) ->
  try_catch m handler h = mkOutcome fx h' (Normal a).
Proof. intros H. unfold try_catch. rewrite H. reflexivity. Qed.

Lemma try_catch_throw (m : M A) (handler : Js.Error -> M A) (h h' : Host)
      (fx : list Effect) (e : Js.Error) :
  m h = mkOutcome fx h' (Throw e) ->
  try_catch m handler h =
    mkOutcome (fx ++ effects (handler e h')) (host (handler e h'))
      (completion (handler e h')).
Proof. intros H. unfold try_catch. rewrite H. reflexivity. Qed.

End Equations.

(* ================================================================== *)
(** ** analyze-file *)
(* ================================================================== *)

Section AnalyzeFile.

Variable rt : Runtime.

(** A truthy string is a non-empty one. *)
Lemma truthy_Str (s : string) : Js.truthy (Js.Str s) = true <-> s <> "".
Proof.
  simpl. destruct (String.eqb_spec s ""); simpl; split; congruence.
Qed.

Lemma or_default_nonempty (s d : string) :
  d <> "" ->
  exists m, Js.or (Js.Str s) (Js.Str d) = Js.Str m /\ m <> "".
Proof.
  intros Hd. unfold Js.or.
  destruct (Js.truthy (Js.Str s)) eqn:E.
  - exists s. split; [reflexivity | now apply truthy_Str].
  - exists d. now split.
Qed.

(** What the [catch] clause of the handler makes of a thrown error. *)
Lemma analyze_file_caught (filePath : string) (h : Host) (e : Js.Error) :
  settle (axios_post rt analyze_url filePath) = inl e ->
  analyze_file rt filePath h =
    mkOutcome [ConsoleError [LStr "Analysis error:"; LErr e]] h
      (Normal (Js.Obj [("success", Js.Bool false);
                       ("error", Js.or (Js.Str (Js.message e))
                                   (Js.Str "Failed to analyze file"))])).
Proof.
  intros H. unfold analyze_file, try_catch, bind, await.
  rewrite H. reflexivity.
Qed.

(** What the handler makes of a response whose body is an object. *)
Lemma analyze_file_object (filePath : string) (h : Host)
      (props : list (string * Js.value)) :
  axios_post rt analyze_url filePath = Resolved (Js.Obj props) ->
  analyze_file rt filePath h =
    mkOutcome [] h
      (Normal
         (if Js.truthy (Js.lookup "success" props)
          then Js.Obj [("success", Js.Bool true);
                       ("path", Js.lookup "reportPath" props)]
          else Js.Obj [("success", Js.Bool false);
                       ("error", Js.or (Js.lookup "error" props)
                                   (Js.Str "Analysis failed"))])).
Proof.
  intros H. unfold analyze_file, try_catch, bind, await.
  rewrite H. simpl.
  destruct (Js.truthy (Js.lookup "success" props)); reflexivity.
Qed.

(** A body that is [null] or [undefined]: reading [success] throws inside
    the [try]. *)
Lemma analyze_file_nullish (filePath : string) (h : Host) (data : Js.value) :
  axios_post rt analyze_url filePath = Resolved data ->
  data = Js.Undefined \/ data = Js.Null ->
  analyze_file rt filePath h =
    mkOutcome
      [ConsoleError [LStr "Analysis error:";
                     LErr (Js.TypeError_read data "success")]] h
      (Normal (Js.Obj [("success", Js.Bool false);
                       ("error",
                        Js.or (Js.Str
                                 (Js.message (Js.TypeError_read data "success")))
                              (Js.Str "Failed to analyze file"))])).
Proof.
  intros H [-> | ->]; unfold analyze_file, try_catch, bind, await;
    rewrite H; reflexivity.
Qed.

(** A body that is neither an object nor nullish has no [success] and no
    [error]. *)
Lemma analyze_file_primitive (filePath : string) (h : Host) (data : Js.value) :
  axios_post rt analyze_url filePath = Resolved data ->
  Js.get data "success" = inr Js.Undefined ->
  Js.get data "error" = inr Js.Undefined ->
  analyze_file rt filePath h =
    mkOutcome [] h (Normal (failure_reply "Analysis failed")).
Proof.
  intros H Hs He. unfold analyze_file, try_catch, bind, await.
  rewrite H. simpl. rewrite Hs. simpl. rewrite He. reflexivity.
Qed.

(** The handler never completes abruptly, whatever the POST brings. *)
Lemma analyze_file_never_throws (filePath : string) (h : Host) :
  exists log v, analyze_file rt filePath h = mkOutcome log h (Normal v).
Proof.
  destruct (axios_post rt analyze_url filePath) as [data | err] eqn:H.
  - destruct data;
      try (eexists; eexists;
           exact (analyze_file_primitive _ _ _ H eq_refl eq_refl)).
    + eexists; eexists.
      exact (analyze_file_nullish _ _ _ H (or_introl eq_refl)).
    + eexists; eexists.
      exact (analyze_file_nullish _ _ _ H (or_intror eq_refl)).
    + eexists; eexists. exact (analyze_file_object _ _ _ H).
  - eexists; eexists. apply analyze_file_caught. now rewrite H.
Qed.


(** C6. A response [{success: false, error: E}] with [E] a non-empty
    string makes analyze-file return the failure variant whose message is
    exactly [E]. *)
Theorem analyze_file_reports_sidecar_error
        (filePath : string) (h : Host)
        (props : list (string * Js.value)) (E : string) :
  axios_post rt analyze_url filePath = Resolved (Js.Obj props) ->
  Js.lookup "success" props = Js.Bool false ->
  Js.lookup "error" props = Js.Str E ->
  E <> "" ->
  analyze_file rt filePath h = mkOutcome [] h (Normal (failure_reply E)).
Proof.
  intros H Hs He HE.
  rewrite (analyze_file_object _ _ _ H), Hs, He. simpl.
  unfold Js.or. apply truthy_Str in HE. rewrite HE. reflexivity.
Qed.

(** C2, as the code has it. A response [{success: true, reportPath: X}]
    makes analyze-file return the success variant carrying the report path
    of the service; the reply holds it under the key [path]: it is
    [{success: true, path: X}]. *)
Theorem analyze_file_success_path
        (filePath : string) (h : Host)
        (props : list (string * Js.value)) (X : string) :
  axios_post rt analyze_url filePath = Resolved (Js.Obj props) ->
  Js.lookup "success" props = Js.Bool true ->
  Js.lookup "reportPath" props = Js.Str X ->
  analyze_file rt filePath h =
    mkOutcome [] h
      (Normal (Js.Obj [("success", Js.Bool true); ("path", Js.Str X)])).
Proof.
  intros H Hs Hp.
  rewrite (analyze_file_object _ _ _ H), Hs, Hp. reflexivity.
Qed.

Lemma or_truthy (a b : Js.value) :
  Js.truthy b = true -> Js.truthy (Js.or a b) = true.
Proof.
  intros Hb. unfold Js.or. destruct (Js.truthy a) eqn:Ha; assumption.
Qed.



End AnalyzeFile.

(* ================================================================== *)
(** ** get-file-info *)
(* ================================================================== *)

Section GetFileInfo.

Variable rt : Runtime.

(** C9. For a path that names a readable file, get-file-info returns
    [size] equal to the number of bytes of the file and [name] equal to
    the base name of the path (and [lastModified], its modification
    time). *)
Theorem get_file_info_readable
        (filePath : string) (h : Host) (content : list Byte.byte) (m : Z) :
  fs_entry rt filePath = File content m ->
  get_file_info rt filePath h =
    mkOutcome [] h
      (Normal (Js.Obj [("name", Js.Str (path_basename rt filePath));
                       ("size", Js.Num (inject_Z (Z.of_nat (length content))));
                       ("lastModified", Js.Date m)])).
Proof.
  intros H. unfold get_file_info, try_catch, bind, await, fs_stat.
  rewrite H. reflexivity.
Qed.

(** C4, as the code has it. For a path whose [stat] fails (no such file,
    or no access), get-file-info writes the error to the console and
    rethrows that same error: the call is rejected, and nothing, complete
    or partial, is returned. *)
Theorem get_file_info_rethrows
        (filePath : string) (h : Host) (e : Js.Error) :
  fs_stat rt filePath = inl e ->
  get_file_info rt filePath h =
    mkOutcome [ConsoleError [LStr "Error getting file info:"; LErr e]] h
      (Throw e)
  /\ forall v, completion (get_file_info rt filePath h) <> Normal v.
Proof.
  intros H.
  assert (Heq : get_file_info rt filePath h =
                mkOutcome
                  [ConsoleError [LStr "Error getting file info:"; LErr e]] h
                  (Throw e)).
  { unfold get_file_info, try_catch, bind, await. rewrite H. reflexivity. }
  split; [exact Heq |].
  intros v. rewrite Heq. discriminate.
Qed.

(** A missing or inaccessible path is exactly one whose [stat] fails. *)
Lemma fs_stat_fails (filePath : string) :
  existsSync rt filePath = false <->
  exists e, fs_stat rt filePath = inl e.
Proof.
  unfold existsSync, fs_stat.
  destruct (fs_entry rt filePath); split; intros H;
    try reflexivity; try discriminate; eauto.
  destruct H as [e H]. discriminate.
Qed.

End GetFileInfo.

(* ================================================================== *)
(** ** The sidecar *)
(* ================================================================== *)

Section Sidecar.

Variable rt : Runtime.

(** C8. In development mode the interpreter is the bare name [python]
    (Windows) or [python3] (elsewhere), looked up on the PATH.  In packaged
    mode, when the interpreter bundled under the resources directory is
    not on disk, starting the sidecar fails with 'Python executable not
    found at: ...', shown in one error box; nothing is spawned and
    [flaskProcess] stays as it was. *)
Theorem startFlaskServer_missing_python (h : Host) :
  (isDev rt = true ->
   getPythonPath rt h =
     mkOutcome [] h
       (Normal (if platform rt =? "win32" then "python" else "python3")))
  /\ (forall r,
         isDev rt = false ->
         resourcesPath rt = Some r ->
         r <> "" ->
         existsSync rt (python_in_resources rt r) = false ->
         let e := new_Error ("Python executable not found at: "
                             ++ python_in_resources rt r) in
         getPythonPath rt h = mkOutcome [] h (Throw e)
         /\ startFlaskServer rt h =
              mkOutcome
                [ConsoleError [LStr "Error starting Flask server:"; LErr e];
                 ShowErrorBox "Server Error"
                   ("Failed to start server: Python executable not found at: "
                    ++ python_in_resources rt r)]
                h (Normal tt)
         /\ count is_error_box (effects (startFlaskServer rt h)) = 1
         /\ count is_spawn (effects (startFlaskServer rt h)) = 0
         /\ flaskProcess (host (startFlaskServer rt h)) = flaskProcess h).
Proof.
  split.
  - intros Hdev. unfold getPythonPath. rewrite Hdev. reflexivity.
  - intros r Hdev Hres Hr Hmissing e.
    assert (Hget : getPythonPath rt h = mkOutcome [] h (Throw e)).
    { unfold getPythonPath. rewrite Hdev, Hres.
      destruct (String.eqb_spec r ""); [contradiction |].
      rewrite Hmissing. reflexivity. }
    assert (Hstart : startFlaskServer rt h =
              mkOutcome
                [ConsoleError [LStr "Error starting Flask server:"; LErr e];
                 ShowErrorBox "Server Error"
                   ("Failed to start server: Python executable not found at: "
                    ++ python_in_resources rt r)]
                h (Normal tt)).
    { unfold startFlaskServer.
      erewrite try_catch_throw by (apply bind_throw; exact Hget).
      reflexivity. }
    split; [exact Hget |]. split; [exact Hstart |].
    rewrite Hstart. repeat split.
Qed.

End Sidecar.

(* ================================================================== *)
(** ** The update cycle *)
(* ================================================================== *)

Lemma count_app (f : Effect -> bool) (a b : list Effect) :
  count f (a ++ b) = count f a + count f b.
Proof.
  unfold count. rewrite filter_app, length_app. reflexivity.
Qed.

Section Silence.

Context {A B : Type} (f : Effect -> bool).

Lemma emits_none_ret (a : A) : emits_none f (ret a).
Proof. intros h. reflexivity. Qed.

Lemma emits_none_throw (e : Js.Error) : emits_none f (@throw A e).
Proof. intros h. reflexivity. Qed.

Lemma emits_none_await (r : Js.Error + A) : emits_none f (await r).
Proof. intros h. destruct r; reflexivity. Qed.

Lemma emits_none_perform (fx : Effect) :
  f fx = false -> emits_none f (perform fx).
Proof. intros H h. unfold count. simpl. now rewrite H. Qed.

Lemma emits_none_bind (m : M A) (k : A -> M B) :
  emits_none f m -> (forall a, emits_none f (k a)) -> emits_none f (bind m k).
Proof.
  intros Hm Hk h. unfold bind. specialize (Hm h).
  destruct (completion (m h)) as [a | e]; simpl.
  - now rewrite count_app, Hm, Hk.
  - exact Hm.
Qed.

Lemma emits_none_try_catch (m : M A) (handler : Js.Error -> M A) :
  emits_none f m -> (forall e, emits_none f (handler e)) ->
  emits_none f (try_catch m handler).
Proof.
  intros Hm Hh h. unfold try_catch. specialize (Hm h).
  destruct (completion (m h)) as [a | e]; simpl.
  - exact Hm.
  - now rewrite count_app, Hm, Hh.
Qed.

End Silence.

Lemma emits_none_get_host (f : Effect -> bool) : emits_none f get_host.
Proof. intros h. reflexivity. Qed.

Lemma emits_none_set_host (f : Effect -> bool) (h' : Host) :
  emits_none f (set_host h').
Proof. intros h. reflexivity. Qed.

Create HintDb silence.
#[local] Hint Resolve emits_none_ret emits_none_throw emits_none_await
  emits_none_get_host emits_none_set_host : silence.

(** Walks through a callback: sequencing, [try], branching, and at the
    leaves an effect that [f] rejects. *)
Ltac silent :=
  repeat first
    [ progress intros
    | assumption
    | solve [auto with silence]
    | apply emits_none_bind
    | apply emits_none_try_catch
    | apply emits_none_perform; reflexivity
    | match goal with
      | |- emits_none _ (if ?b then _ else _) => destruct b
      | |- emits_none _ (match ?x with _ => _ end) => destruct x
      | |- emits_none _ (let _ := _ in _) => cbv zeta
      end ].

Section Updates.

Variable rt : Runtime.

Lemma run_app (a b : list Input) (h : Host) :
  run rt (a ++ b) h =
    ((fst (run rt a h) ++ fst (run rt b (snd (run rt a h))))%list,
     snd (run rt b (snd (run rt a h)))).
Proof.
  revert h. induction a as [| i a IH]; intros h; simpl.
  - now destruct (run rt b h).
  - rewrite IH.
    destruct (run rt a (host (step rt i h))) as [fa ha]. simpl.
    now rewrite app_assoc.
Qed.

Lemma getPythonPath_no_download :
  emits_none is_download (getPythonPath rt).
Proof. unfold getPythonPath. silent. Qed.

Lemma startFlaskServer_no_download :
  emits_none is_download (startFlaskServer rt).
Proof.
  pose proof getPythonPath_no_download. unfold startFlaskServer. silent.
Qed.

Lemma createWindow_no_download : emits_none is_download (createWindow rt).
Proof.
  pose proof startFlaskServer_no_download.
  unfold createWindow, checkForUpdates. silent.
Qed.

Lemma autoUpdater_emit_no_download (e : UpdaterEvent) :
  emits_none is_download (autoUpdater_emit e).
Proof.
  destruct e;
    cbv [autoUpdater_emit on_update_available_prompt
         on_update_available_status on_update_downloaded_prompt
         on_update_downloaded_restart on_error_box on_error_status
         on_checking_status on_update_not_available_status
         on_download_progress webContents_send];
    silent.
Qed.

Lemma ipc_handle_no_download (channel arg : string) :
  emits_none is_download (ipc_handle rt channel arg).
Proof.
  unfold ipc_handle, select_file, get_file_info, analyze_file. silent.
Qed.

(** No callback but the "Yes" of the download prompt starts a download. *)
Lemma step_no_download (i : Input) :
  accepts_download i = false -> emits_none is_download (step rt i).
Proof.
  pose proof createWindow_no_download.
  pose proof autoUpdater_emit_no_download.
  pose proof ipc_handle_no_download.
  destruct i as [ | | e | p response | | | | | | | | ];
    cbv [step accepts_download hourly_tick checkForUpdates_catch when_flask
         flask_on_stdout flask_on_stderr flask_on_error
         download_prompt_then install_prompt_then
         on_window_all_closed on_activate on_before_quit];
    intros Hi; try destruct p; try rewrite Hi; silent.
Qed.

Lemma step_downloads (i : Input) (h : Host) :
  count is_download (effects (step rt i h)) =
    if accepts_download i then 1 else 0.
Proof.
  destruct (accepts_download i) eqn:Hi.
  - destruct i as [ | | | [|] response | | | | | | | | ]; try discriminate Hi.
    simpl in Hi. unfold step, download_prompt_then. rewrite Hi. reflexivity.
  - now apply step_no_download.
Qed.

Lemma run_downloads (inputs : list Input) (h : Host) :
  count is_download (fst (run rt inputs h)) =
    length (filter accepts_download inputs).
Proof.
  revert h. induction inputs as [| i rest IH]; intros h; simpl.
  - reflexivity.
  - specialize (IH (host (step rt i h))).
    destruct (run rt rest (host (step rt i h))) as [fx h'].
    simpl in *. rewrite count_app, step_downloads, IH.
    now destruct (accepts_download i).
Qed.

(** C7. Downloading is never automatic: [autoDownload] is off; when an
    update is announced the host shows the download prompt and, with a
    window open, sends a status line, and nothing else; the answer "Yes"
    starts the download and any other answer does nothing; over any run,
    the downloads started are as many as the "Yes" answers given, each
    started by the callback of its answer. *)
Theorem download_needs_consent
        (inputs : list Input) (h : Host) (info : UpdateInfo) :
  autoDownload autoUpdater_config = false
  /\ effects (step rt (Updater (UpdateAvailable info)) h) =
       ShowMessageBox DownloadPrompt (mainWindow h) "Update Available"
         ("Version " ++ version info
          ++ " is available. Would you like to download it now?")
         ["Yes"; "No"]
       :: match mainWindow h with
          | Some _ => [Send "update-status"
                         (Js.Str "Update available. Downloading...")]
          | None => []
          end
  /\ (forall response,
         step rt (MessageBoxClosed DownloadPrompt response) h =
           mkOutcome
             (if (response =? 0)%Z then [UpdaterDownloadUpdate] else [])
             h (Normal tt))
  /\ (forall i,
         count is_download (effects (step rt i h)) =
           if accepts_download i then 1 else 0)
  /\ count is_download (fst (run rt inputs h)) =
       length (filter accepts_download inputs).
Proof.
  split; [reflexivity |]. split.
  { destruct h as [[w |] fp]; reflexivity. }
  split.
  { intros response. unfold step, download_prompt_then.
    destruct (response =? 0)%Z; reflexivity. }
  split.
  - intros i. apply step_downloads.
  - apply run_downloads.
Qed.

(** C3, as the code has it. Neither [checkForUpdates] nor the hourly
    timer looks at any state: each call hands one check request to the
    updater and leaves the host untouched, and a tick of the timer after
    any run whatever, one that has reached a check or a download
    included, adds one request to those already made. *)
Theorem check_is_unguarded (before : list Input) (h : Host) :
  checkForUpdates h = mkOutcome [UpdaterCheckForUpdates true] h (Normal tt)
  /\ step rt HourlyTick h =
       mkOutcome [UpdaterCheckForUpdates false] h (Normal tt)
  /\ count is_check (fst (run rt (before ++ [HourlyTick]) h)) =
       count is_check (fst (run rt before h)) + 1.
Proof.
  split; [reflexivity |]. split; [reflexivity |].
  rewrite run_app. simpl. now rewrite count_app.
Qed.

End Updates.

(** C1, where the code departs from it. When the updater announces the
    downloaded update, the first listener shows the install prompt and the
    second one, in the same turn, sends 'Update downloaded. Restarting...'
    and calls [quitAndInstall]: the application quits and installs before
    the prompt is answered.  In the run [until_downloaded] no answer to
    the install prompt occurs, and [quitAndInstall] has been called. *)
Theorem update_downloaded_installs_unasked :
  (forall (rt : Runtime) (info : UpdateInfo) (w : BrowserWindow)
          (fp : option ChildProcess),
      step rt (Updater (UpdateDownloaded info))
           {| mainWindow := Some w; flaskProcess := fp |} =
        mkOutcome
          [ShowMessageBox InstallPrompt (Some w) "Update Ready"
             ("Version " ++ version info
              ++ " has been downloaded. Would you like to install it now?")
             ["Yes"; "No"];
           Send "update-status" (Js.Str "Update downloaded. Restarting...");
           UpdaterQuitAndInstall]
          {| mainWindow := Some w; flaskProcess := fp |} (Normal tt))
  /\ existsb (fun i => match i with
                       | MessageBoxClosed InstallPrompt _ => true
                       | _ => false
                       end) until_downloaded = false
  /\ count is_quit_and_install
       (fst (run packaged_linux until_downloaded initial_host)) = 1.
Proof.
  split; [reflexivity |]. split; vm_compute; reflexivity.
Qed.

(* ================================================================== *)
(** ** The properties at work on the example runtimes *)
(* ================================================================== *)

(** C2 as the specification words it, refuted: for the response
    [{success: true, reportPath: "X"}] the reply is a success, it has no
    [reportPath], and "X" is found under [path]. *)
Lemma analyze_file_reply_has_no_reportPath :
  axios_post packaged_linux analyze_url "/data/x.ide" =
    Resolved (Js.Obj [("success", Js.Bool true); ("reportPath", Js.Str "X")])
  /\ exists v,
      completion (analyze_file packaged_linux "/data/x.ide" running_host)
      = Normal v
      /\ Js.get v "success" = inr (Js.Bool true)
      /\ Js.get v "reportPath" = inr Js.Undefined
      /\ Js.get v "reportPath" <> inr (Js.Str "X")
      /\ Js.get v "path" = inr (Js.Str "X").
Proof.
  split; [reflexivity |].
  eexists. split; [vm_compute; reflexivity |].
  repeat split; try reflexivity. discriminate.
Qed.

Lemma analyze_file_success_path_witness :
  axios_post packaged_linux analyze_url "/data/sample.ide" =
    Resolved (Js.Obj [("success", Js.Bool true);
                      ("reportPath", Js.Str "/reports/sample.html")])
  /\ analyze_file packaged_linux "/data/sample.ide" running_host =
       mkOutcome [] running_host
         (Normal (Js.Obj [("success", Js.Bool true);
                          ("path", Js.Str "/reports/sample.html")])).
Proof.
  split; [reflexivity |].
  apply (analyze_file_success_path packaged_linux "/data/sample.ide"
           running_host
           [("success", Js.Bool true);
            ("reportPath", Js.Str "/reports/sample.html")]
           "/reports/sample.html"); reflexivity.
Defined.



Lemma analyze_file_reports_sidecar_error_witness :
  axios_post packaged_linux analyze_url "/data/bad.ide" =
    Resolved (Js.Obj [("success", Js.Bool false);
                      ("error", Js.Str "bad format")])
  /\ "bad format" <> ""
  /\ analyze_file packaged_linux "/data/bad.ide" running_host =
       mkOutcome [] running_host (Normal (failure_reply "bad format")).
Proof.
  split; [reflexivity |]. split; [discriminate |].
  apply (analyze_file_reports_sidecar_error packaged_linux "/data/bad.ide"
           running_host
           [("success", Js.Bool false); ("error", Js.Str "bad format")]
           "bad format");
    try reflexivity.
  discriminate.
Defined.


(** C4 as the specification words it, refuted: for a missing path the
    handler does not return a failure value, it throws the error of
    [stat]. *)
Lemma get_file_info_throws_on_missing :
  fs_entry packaged_linux "/data/missing.ide" = NoEntry
  /\ completion (get_file_info packaged_linux "/data/missing.ide"
                   running_host)
     = Throw (ENOENT "/data/missing.ide")
  /\ ~ exists v,
        completion (get_file_info packaged_linux "/data/missing.ide"
                      running_host) = Normal v.
Proof.
  split; [reflexivity |]. split; [reflexivity |].
  intros [v H]. discriminate H.
Qed.

Lemma get_file_info_rethrows_witness :
  fs_stat packaged_linux "/data/locked.ide" = inl (EACCES "/data/locked.ide")
  /\ get_file_info packaged_linux "/data/locked.ide" running_host =
       mkOutcome
         [ConsoleError [LStr "Error getting file info:";
                        LErr (EACCES "/data/locked.ide")]]
         running_host (Throw (EACCES "/data/locked.ide"))
  /\ forall v,
      completion (get_file_info packaged_linux "/data/locked.ide"
                    running_host) <> Normal v.
Proof.
  split; [reflexivity |].
  apply (get_file_info_rethrows packaged_linux "/data/locked.ide"
           running_host (EACCES "/data/locked.ide")).
  reflexivity.
Defined.

Lemma get_file_info_readable_witness :
  fs_entry packaged_linux "/data/sample.ide"
  = File (repeat Byte.x00 1024) 1700000000000
  /\ get_file_info packaged_linux "/data/sample.ide" running_host =
       mkOutcome [] running_host
         (Normal (Js.Obj [("name", Js.Str "sample.ide");
                          ("size", Js.Num (inject_Z 1024));
                          ("lastModified", Js.Date 1700000000000)])).
Proof.
  split; [reflexivity |].
  apply (get_file_info_readable packaged_linux "/data/sample.ide"
           running_host (repeat Byte.x00 1024) 1700000000000).
  reflexivity.
Defined.

Lemma startFlaskServer_missing_python_witness :
  getPythonPath dev_windows initial_host =
    mkOutcome [] initial_host (Normal "python")
  /\ existsSync packaged_linux
       "/opt/VibeCheck Pro/resources/python/bin/python3" = false
  /\ startFlaskServer packaged_linux initial_host =
       mkOutcome
         [ConsoleError
            [LStr "Error starting Flask server:";
             LErr (new_Error
                     "Python executable not found at: /opt/VibeCheck Pro/resources/python/bin/python3")];
          ShowErrorBox "Server Error"
            "Failed to start server: Python executable not found at: /opt/VibeCheck Pro/resources/python/bin/python3"]
         initial_host (Normal tt)
  /\ count is_spawn (effects (startFlaskServer packaged_linux initial_host))
     = 0.
Proof.
  destruct (startFlaskServer_missing_python dev_windows initial_host)
    as [Hdev _].
  destruct (startFlaskServer_missing_python packaged_linux initial_host)
    as [_ Hpackaged].
  split; [exact (Hdev eq_refl) |]. split; [reflexivity |].
  destruct (Hpackaged "/opt/VibeCheck Pro/resources" eq_refl eq_refl)
    as [_ [Hstart [_ [Hspawn _]]]];
    [discriminate | reflexivity |].
  split; [exact Hstart | exact Hspawn].
Defined.

(** C3 as the specification words it, refuted: with a download under
    way the tick of the timer asks the updater for a check all the same,
    and so does [checkForUpdates] while the first check is under way. *)
Lemma timer_checks_while_downloading :
  spec_status until_downloading = Downloading
  /\ effects (step packaged_linux HourlyTick
               (snd (run packaged_linux until_downloading initial_host)))
     = [UpdaterCheckForUpdates false]
  /\ spec_status until_checking = Checking
  /\ effects (checkForUpdates
               (snd (run packaged_linux until_checking initial_host)))
     = [UpdaterCheckForUpdates true]
  /\ count is_check
       (fst (run packaged_linux (until_downloading ++ [HourlyTick])
               initial_host))
     = 2.
Proof.
  repeat split; vm_compute; reflexivity.
Qed.

(* ================================================================== *)
(** ** Startup and the lifetime of the sidecar *)
(* ================================================================== *)

Section Lifetime.

Variable rt : Runtime.

Lemma getPythonPath_pure (h : Host) :
  getPythonPath rt h = mkOutcome [] h (resolved_python rt).
Proof.
  unfold resolved_python, getPythonPath.
  destruct (isDev rt); [reflexivity |].
  destruct (resourcesPath rt) as [r |]; [| reflexivity].
  destruct (r =? ""); [reflexivity |].
  destruct (negb (existsSync rt (python_in_resources rt r))); reflexivity.
Qed.

(** The two ways [startFlaskServer] can go. *)
Lemma startFlaskServer_outcome (h : Host) :
  startFlaskServer rt h =
    match resolved_python rt with
    | Normal pythonPath =>
        mkOutcome
          [ConsoleLog [LStr "Starting Flask server with Python:";
                       LStr pythonPath];
           ConsoleLog [LStr "Flask script path:";
                       LStr (path_join rt [dirname rt; "flask_server.py"])];
           Spawn (flask_child rt pythonPath)]
          {| mainWindow := mainWindow h;
             flaskProcess := Some (flask_child rt pythonPath) |}
          (Normal tt)
    | Throw e =>
        mkOutcome
          [ConsoleError [LStr "Error starting Flask server:"; LErr e];
           ShowErrorBox "Server Error"
             ("Failed to start server: " ++ Js.message e)]
          h (Normal tt)
    end.
Proof.
  unfold startFlaskServer.
  destruct (resolved_python rt) as [pythonPath | e] eqn:Hres.
  - erewrite try_catch_normal; [reflexivity |].
    erewrite bind_normal
      by (rewrite getPythonPath_pure, Hres; reflexivity).
    reflexivity.
  - erewrite try_catch_throw
      by (apply bind_throw; rewrite getPythonPath_pure, Hres; reflexivity).
    reflexivity.
Qed.

(** X1. Starting the sidecar never throws, and it ends in exactly one of
    two ways: one child is spawned, no error box is shown and
    [flaskProcess] holds that child; or nothing is spawned, one error box
    is shown and [flaskProcess] is left as it was. *)
Theorem startFlaskServer_spawns_or_reports (h : Host) :
  completion (startFlaskServer rt h) = Normal tt
  /\ ((count is_spawn (effects (startFlaskServer rt h)) = 1
       /\ count is_error_box (effects (startFlaskServer rt h)) = 0
       /\ exists child,
           In (Spawn child) (effects (startFlaskServer rt h))
           /\ flaskProcess (host (startFlaskServer rt h)) = Some child)
      \/ (count is_spawn (effects (startFlaskServer rt h)) = 0
          /\ count is_error_box (effects (startFlaskServer rt h)) = 1
          /\ host (startFlaskServer rt h) = h)).
Proof.
  rewrite startFlaskServer_outcome.
  destruct (resolved_python rt) as [pythonPath | e].
  - split; [reflexivity |]. left. repeat split.
    exists (flask_child rt pythonPath). split; [| reflexivity].
    simpl. auto.
  - split; [reflexivity |]. right. repeat split.
Qed.

(** X2. When the interpreter resolves (development mode, or a bundled
    interpreter that is on disk), the sidecar is spawned with that
    interpreter, with [flask_server.py] of the application directory as
    its only argument and with PYTHONPATH set to the application
    directory. *)
Theorem startFlaskServer_spawns_interpreter (h : Host) :
  (isDev rt = true
   \/ exists r, resourcesPath rt = Some r /\ r <> ""
                /\ existsSync rt (python_in_resources rt r) = true) ->
  exists pythonPath,
    (pythonPath =
       if isDev rt
       then (if platform rt =? "win32" then "python" else "python3")
       else match resourcesPath rt with
            | Some r => python_in_resources rt r
            | None => ""
            end)
    /\ spawned (effects (startFlaskServer rt h)) =
         [{| command := pythonPath;
             args := [path_join rt [dirname rt; "flask_server.py"]];
             env_overlay := [("PYTHONPATH", path_join rt [dirname rt])] |}]
    /\ flaskProcess (host (startFlaskServer rt h)) =
         Some (flask_child rt pythonPath)
    /\ mainWindow (host (startFlaskServer rt h)) = mainWindow h.
Proof.
  intros Hres. eexists. split; [reflexivity |].
  assert (Hpy : resolved_python rt =
                Normal (if isDev rt
                        then (if platform rt =? "win32"
                              then "python" else "python3")
                        else match resourcesPath rt with
                             | Some r => python_in_resources rt r
                             | None => ""
                             end)).
  { unfold resolved_python, getPythonPath.
    destruct Hres as [Hdev | [r [Hr [Hne Hex]]]].
    - rewrite Hdev. reflexivity.
    - destruct (isDev rt); [reflexivity |]. rewrite Hr.
      destruct (String.eqb_spec r ""); [contradiction |].
      rewrite Hex. reflexivity. }
  rewrite startFlaskServer_outcome, Hpy. repeat split.
Qed.

(** The whole of [createWindow]. *)
Lemma createWindow_outcome (h : Host) :
  let h' := {| mainWindow := Some (Window 1000 800 800 600);
               flaskProcess := flaskProcess h |} in
  createWindow rt h =
    mkOutcome
      ([NewBrowserWindow (Window 1000 800 800 600); LoadFile "index.html"]
         ++ (if isDev rt then [OpenDevTools] else [])
         ++ effects (startFlaskServer rt h')
         ++ [UpdaterCheckForUpdates true])
      (host (startFlaskServer rt h'))
      (Normal tt).
Proof.
  intros h'. unfold createWindow.
  assert (Hstart : completion (startFlaskServer rt h') = Normal tt).
  { rewrite startFlaskServer_outcome.
    now destruct (resolved_python rt). }
  unfold bind; simpl. fold h'.
  destruct (isDev rt); simpl; fold h'; rewrite Hstart; reflexivity.
Qed.

Lemma createWindow_checks_once (h : Host) :
  count is_check (effects (createWindow rt h)) = 1.
Proof.
  rewrite createWindow_outcome. cbn [effects].
  rewrite !count_app, startFlaskServer_outcome.
  destruct (isDev rt), (resolved_python rt); reflexivity.
Qed.

(** X3. Startup order: [createWindow] first creates the window and loads
    the page, then starts the sidecar, and last asks for an update check.
    It never throws, it leaves [mainWindow] set, and the update check is
    made once whether or not the sidecar could be started. *)
Theorem createWindow_order (h : Host) :
  completion (createWindow rt h) = Normal tt
  /\ mainWindow (host (createWindow rt h)) = Some (Window 1000 800 800 600)
  /\ (exists between,
         effects (createWindow rt h) =
           ((NewBrowserWindow (Window 1000 800 800 600)
               :: LoadFile "index.html" :: between)
              ++ [UpdaterCheckForUpdates true])%list
         /\ count is_check between = 0
         /\ count is_spawn between
            = count is_spawn
                (effects (startFlaskServer rt
                            {| mainWindow := Some (Window 1000 800 800 600);
                               flaskProcess := flaskProcess h |})))
  /\ count is_check (effects (createWindow rt h)) = 1.
Proof.
  rewrite createWindow_outcome. simpl.
  split; [reflexivity |]. split.
  { rewrite startFlaskServer_outcome.
    now destruct (resolved_python rt). }
  split.
  - eexists. split.
    + rewrite app_assoc. reflexivity.
    + rewrite !count_app, startFlaskServer_outcome.
      destruct (isDev rt), (resolved_python rt); split; reflexivity.
  - change (count is_check
              ([NewBrowserWindow (Window 1000 800 800 600);
                LoadFile "index.html"]
                 ++ (if isDev rt then [OpenDevTools] else [])
                 ++ effects (startFlaskServer rt
                      {| mainWindow := Some (Window 1000 800 800 600);
                         flaskProcess := flaskProcess h |})
                 ++ [UpdaterCheckForUpdates true]) = 1).
    rewrite !count_app, startFlaskServer_outcome.
    destruct (isDev rt), (resolved_python rt); reflexivity.
Qed.

End Lifetime.

(* ================================================================== *)
(** ** What the callbacks leave alone *)
(* ================================================================== *)

Section KeepsHost.

Context {A B : Type}.

Lemma keeps_host_ret (a : A) : keeps_host (ret a).
Proof. intros h. reflexivity. Qed.

Lemma keeps_host_throw (e : Js.Error) : keeps_host (@throw A e).
Proof. intros h. reflexivity. Qed.

Lemma keeps_host_await (r : Js.Error + A) : keeps_host (await r).
Proof. intros h. destruct r; reflexivity. Qed.

Lemma keeps_host_bind (m : M A) (k : A -> M B) :
  keeps_host m -> (forall a, keeps_host (k a)) -> keeps_host (bind m k).
Proof.
  intros Hm Hk h. unfold bind. specialize (Hm h).
  destruct (completion (m h)) as [a | e]; simpl.
  - now rewrite Hk.
  - exact Hm.
Qed.

Lemma keeps_host_try_catch (m : M A) (handler : Js.Error -> M A) :
  keeps_host m -> (forall e, keeps_host (handler e)) ->
  keeps_host (try_catch m handler).
Proof.
  intros Hm Hh h. unfold try_catch. specialize (Hm h).
  destruct (completion (m h)) as [a | e]; simpl.
  - exact Hm.
  - now rewrite Hh.
Qed.

End KeepsHost.

Lemma keeps_host_perform (fx : Effect) : keeps_host (perform fx).
Proof. intros h. reflexivity. Qed.

Lemma keeps_host_get_host : keeps_host get_host.
Proof. intros h. reflexivity. Qed.

#[local] Hint Resolve keeps_host_ret keeps_host_throw keeps_host_await
  keeps_host_perform keeps_host_get_host : silence.

(** Walks through a callback that never assigns a module variable. *)
Ltac untouched :=
  repeat first
    [ progress intros
    | assumption
    | solve [auto with silence]
    | apply keeps_host_bind
    | apply keeps_host_try_catch
    | match goal with
      | |- keeps_host (if ?b then _ else _) => destruct b
      | |- keeps_host (match ?x with _ => _ end) => destruct x
      end ].

(** As [silent], for a filter known through hypotheses. *)
Ltac hushed :=
  repeat first
    [ progress intros
    | assumption
    | solve [auto with silence]
    | apply emits_none_bind
    | apply emits_none_try_catch
    | apply emits_none_perform; solve [reflexivity | auto]
    | match goal with
      | |- emits_none _ (if ?b then _ else _) => destruct b
      | |- emits_none _ (match ?x with _ => _ end) => destruct x
      end ].

Section Quiet.

Variable rt : Runtime.
Variable f : Effect -> bool.

Hypothesis f_log : forall items, f (ConsoleLog items) = false.
Hypothesis f_error : forall items, f (ConsoleError items) = false.
Hypothesis f_dialog :
  forall parent properties filters,
    f (ShowOpenDialog parent properties filters) = false.
Hypothesis f_box : forall title content, f (ShowErrorBox title content) = false.
Hypothesis f_prompt :
  forall p parent title msg buttons,
    f (ShowMessageBox p parent title msg buttons) = false.
Hypothesis f_send : forall channel payload, f (Send channel payload) = false.
Hypothesis f_window : forall w, f (NewBrowserWindow w) = false.
Hypothesis f_load : forall file, f (LoadFile file) = false.
Hypothesis f_devtools : f OpenDevTools = false.
Hypothesis f_spawn : forall child, f (Spawn child) = false.
Hypothesis f_check : forall caught, f (UpdaterCheckForUpdates caught) = false.
Hypothesis f_install : f UpdaterQuitAndInstall = false.

Lemma ipc_handle_quiet (channel arg : string) :
  emits_none f (ipc_handle rt channel arg).
Proof.
  unfold ipc_handle, select_file, get_file_info, analyze_file. hushed.
Qed.

Lemma autoUpdater_emit_quiet (e : UpdaterEvent) :
  emits_none f (autoUpdater_emit e).
Proof.
  destruct e;
    cbv [autoUpdater_emit on_update_available_prompt
         on_update_available_status on_update_downloaded_prompt
         on_update_downloaded_restart on_error_box on_error_status
         on_checking_status on_update_not_available_status
         on_download_progress webContents_send];
    hushed.
Qed.

Lemma startFlaskServer_quiet : emits_none f (startFlaskServer rt).
Proof.
  intros h. rewrite startFlaskServer_outcome.
  destruct (resolved_python rt); unfold count; simpl;
    now rewrite ?f_log, ?f_error, ?f_box, ?f_spawn.
Qed.

Lemma createWindow_quiet : emits_none f (createWindow rt).
Proof.
  intros h. rewrite createWindow_outcome. cbn [effects].
  rewrite !count_app, startFlaskServer_quiet.
  destruct (isDev rt); unfold count; simpl;
    now rewrite ?f_window, ?f_load, ?f_devtools, ?f_check.
Qed.

End Quiet.

Section HostKept.

Variable rt : Runtime.

Lemma ipc_handle_keeps_host (channel arg : string) :
  keeps_host (ipc_handle rt channel arg).
Proof.
  unfold ipc_handle, select_file, get_file_info, analyze_file. untouched.
Qed.

Lemma autoUpdater_emit_keeps_host (e : UpdaterEvent) :
  keeps_host (autoUpdater_emit e).
Proof.
  destruct e;
    cbv [autoUpdater_emit on_update_available_prompt
         on_update_available_status on_update_downloaded_prompt
         on_update_downloaded_restart on_error_box on_error_status
         on_checking_status on_update_not_available_status
         on_download_progress webContents_send];
    untouched.
Qed.

(** Only [createWindow] assigns [mainWindow] and [flaskProcess]. *)
Lemma step_keeps_host (i : Input) :
  opens_window i = false -> keeps_host (step rt i).
Proof.
  pose proof autoUpdater_emit_keeps_host.
  pose proof ipc_handle_keeps_host.
  destruct i as [ | | e | p response | | | | | | | | ];
    cbv [step opens_window hourly_tick checkForUpdates_catch when_flask
         flask_on_stdout flask_on_stderr flask_on_error
         download_prompt_then install_prompt_then
         on_window_all_closed on_activate on_before_quit];
    intros Hi; try discriminate Hi; try destruct p; try rewrite Hi;
    untouched.
Qed.

Lemma createWindow_host (h : Host) :
  host (createWindow rt h) =
    {| mainWindow := Some (Window 1000 800 800 600);
       flaskProcess :=
         match resolved_python rt with
         | Normal pythonPath => Some (flask_child rt pythonPath)
         | Throw _ => flaskProcess h
         end |}.
Proof.
  rewrite createWindow_outcome. simpl. rewrite startFlaskServer_outcome.
  destruct (resolved_python rt); reflexivity.
Qed.

Lemma step_opens_window (i : Input) (h : Host) :
  opens_window i = true -> step rt i h = createWindow rt h.
Proof.
  destruct i; try discriminate; [reflexivity |].
  simpl. unfold on_activate. now intros ->.
Qed.

End HostKept.

(* ================================================================== *)
(** ** Counting over whole runs *)
(* ================================================================== *)


(** Splits on the input of a callback that emits nothing [f] accepts;
    [Hi] says the input is none of those that do. *)
Ltac quiet_step Hi :=
  match goal with
  | |- emits_none _ (step _ ?i) =>
      destruct i as [ | | ? | [|] ? | | | | | | | | ];
      cbv [step asks_for_check opens_window announces may_install
           is_before_quit accepts_download hourly_tick
           checkForUpdates_catch when_flask flask_on_stdout
           flask_on_stderr flask_on_error download_prompt_then
           install_prompt_then on_window_all_closed on_activate
           on_before_quit] in Hi |- *;
      try discriminate Hi; try rewrite Hi;
      try solve [hushed];
      try (match goal with
           | |- emits_none _ (autoUpdater_emit ?e) => destruct e
           end;
           cbv [autoUpdater_emit on_update_available_prompt
                on_update_available_status on_update_downloaded_prompt
                on_update_downloaded_restart on_error_box on_error_status
                on_checking_status on_update_not_available_status
                on_download_progress webContents_send] in Hi |- *;
           try discriminate Hi; hushed)
  end.

Section Traces.

Variable rt : Runtime.

Lemma run_count_sum (f : Effect -> bool) (g : Input -> nat) :
  (forall i h, count f (effects (step rt i h)) = g i) ->
  forall inputs h,
    count f (fst (run rt inputs h)) = list_sum (map g inputs).
Proof.
  intros Hstep inputs. induction inputs as [| i rest IH]; intros h; simpl.
  - reflexivity.
  - specialize (IH (host (step rt i h))).
    destruct (run rt rest (host (step rt i h))) as [fx h'].
    simpl in *. now rewrite count_app, Hstep, IH.
Qed.

Lemma run_count_le (f : Effect -> bool) (g : Input -> nat) :
  (forall i h, count f (effects (step rt i h)) <= g i) ->
  forall inputs h,
    count f (fst (run rt inputs h)) <= list_sum (map g inputs).
Proof.
  intros Hstep inputs. induction inputs as [| i rest IH]; intros h; simpl.
  - apply Nat.le_refl.
  - specialize (IH (host (step rt i h))). specialize (Hstep i h).
    destruct (run rt rest (host (step rt i h))) as [fx h'].
    simpl in *. rewrite count_app. lia.
Qed.

Lemma list_sum_indicator (trigger : Input -> bool) (n : nat)
      (inputs : list Input) :
  list_sum (map (fun i => if trigger i then n else 0) inputs)
  = n * length (filter trigger inputs).
Proof.
  induction inputs as [| i rest IH]; simpl; [lia |].
  rewrite IH. destruct (trigger i); simpl; lia.
Qed.

Lemma step_checks (i : Input) (h : Host) :
  count is_check (effects (step rt i h)) =
    if asks_for_check i then 1 else 0.
Proof.
  destruct (asks_for_check i) eqn:Hi.
  - destruct i; try discriminate Hi.
    + apply createWindow_checks_once.
    + reflexivity.
    + rewrite step_opens_window by exact Hi. apply createWindow_checks_once.
  - revert h. change (emits_none is_check (step rt i)).
    pose proof (ipc_handle_quiet rt is_check (fun _ => eq_refl)
                  (fun _ _ _ => eq_refl)).
    quiet_step Hi.
Qed.

(** X4. Over any run, the update checks asked of the updater are exactly
    those of window creations (application ready, activation with no
    window open) and of timer ticks, one each: no updater event, dialog
    answer or UI request ever triggers a check. *)
Theorem checks_come_from_startup_and_timer (inputs : list Input) (h : Host) :
  count is_check (fst (run rt inputs h))
  = length (filter asks_for_check inputs).
Proof.
  rewrite (run_count_sum is_check
             (fun i => if asks_for_check i then 1 else 0))
    by apply step_checks.
  rewrite list_sum_indicator. lia.
Qed.

Lemma step_spawns (i : Input) (h : Host) :
  count is_spawn (effects (step rt i h)) =
    if opens_window i
    then match resolved_python rt with Normal _ => 1 | Throw _ => 0 end
    else 0.
Proof.
  destruct (opens_window i) eqn:Hi.
  - rewrite step_opens_window by exact Hi.
    rewrite createWindow_outcome. cbn [effects].
    rewrite !count_app, startFlaskServer_outcome.
    destruct (isDev rt), (resolved_python rt); reflexivity.
  - revert h. change (emits_none is_spawn (step rt i)).
    pose proof (ipc_handle_quiet rt is_spawn (fun _ => eq_refl)
                  (fun _ _ _ => eq_refl)).
    pose proof (autoUpdater_emit_quiet is_spawn (fun _ _ => eq_refl)
                  (fun _ _ _ _ _ => eq_refl) (fun _ _ => eq_refl) eq_refl).
    quiet_step Hi.
Qed.

Lemma step_kills (i : Input) (h : Host) :
  count is_kill (effects (step rt i h)) <=
    if is_before_quit i then 1 else 0.
Proof.
  destruct (is_before_quit i) eqn:Hi.
  - destruct i; try discriminate Hi.
    unfold step, on_before_quit, bind. simpl.
    destruct (flaskProcess h); simpl; unfold count; simpl; lia.
  - apply Nat.eq_le_incl. revert h. change (emits_none is_kill (step rt i)).
    pose proof (ipc_handle_quiet rt is_kill (fun _ => eq_refl)
                  (fun _ _ _ => eq_refl)).
    pose proof (autoUpdater_emit_quiet is_kill (fun _ _ => eq_refl)
                  (fun _ _ _ _ _ => eq_refl) (fun _ _ => eq_refl) eq_refl).
    pose proof (createWindow_quiet rt is_kill (fun _ => eq_refl)
                  (fun _ => eq_refl) (fun _ _ => eq_refl) (fun _ => eq_refl)
                  (fun _ => eq_refl) eq_refl (fun _ => eq_refl)
                  (fun _ => eq_refl)).
    quiet_step Hi.
Qed.

(** X5. Window creation has no guard against a sidecar that already
    runs: when the interpreter resolves, every window creation spawns one
    more sidecar, while quitting kills at most one per [before-quit]; when
    it does not resolve nothing is ever spawned. *)
Theorem every_window_spawns_a_sidecar (inputs : list Input) (h : Host) :
  count is_spawn (fst (run rt inputs h))
  = match resolved_python rt with
    | Normal _ => length (filter opens_window inputs)
    | Throw _ => 0
    end
  /\ count is_kill (fst (run rt inputs h))
     <= length (filter is_before_quit inputs).
Proof.
  split.
  - rewrite (run_count_sum is_spawn
               (fun i => if opens_window i
                         then match resolved_python rt with
                              | Normal _ => 1
                              | Throw _ => 0
                              end
                         else 0))
      by apply step_spawns.
    rewrite list_sum_indicator. destruct (resolved_python rt); lia.
  - eapply Nat.le_trans.
    + apply (run_count_le is_kill
               (fun i => if is_before_quit i then 1 else 0)), step_kills.
    + rewrite list_sum_indicator. lia.
Qed.

End Traces.

Section Prompts.

Variable rt : Runtime.

Lemma step_prompts (p : Prompt) (i : Input) (h : Host) :
  count (is_prompt p) (effects (step rt i h)) =
    if announces p i then 1 else 0.
Proof.
  destruct (announces p i) eqn:Hi.
  - destruct i as [ | | [ | info | | | | info] | | | | | | | | | ];
      destruct p; try discriminate Hi;
      destruct h as [[w |] fp]; reflexivity.
  - revert h. change (emits_none (is_prompt p) (step rt i)).
    pose proof (ipc_handle_quiet rt (is_prompt p)
                  (fun _ => ltac:(now destruct p))
                  (fun _ _ _ => ltac:(now destruct p))).
    pose proof (createWindow_quiet rt (is_prompt p)
                  (fun _ => ltac:(now destruct p))
                  (fun _ => ltac:(now destruct p))
                  (fun _ _ => ltac:(now destruct p))
                  (fun _ => ltac:(now destruct p))
                  (fun _ => ltac:(now destruct p))
                  ltac:(now destruct p)
                  (fun _ => ltac:(now destruct p))
                  (fun _ => ltac:(now destruct p))).
    destruct p; quiet_step Hi.
Qed.

(** X6. Over any run, a download prompt is shown once for every
    'update-available' event and an install prompt once for every
    'update-downloaded' event, window or no window, and on no other
    occasion: a check that finds nothing, an updater error and a progress
    report never open a message box. *)
Theorem prompts_follow_announcements
        (p : Prompt) (inputs : list Input) (h : Host) :
  count (is_prompt p) (fst (run rt inputs h))
  = length (filter (announces p) inputs).
Proof.
  rewrite (run_count_sum rt (is_prompt p)
             (fun i => if announces p i then 1 else 0))
    by apply step_prompts.
  rewrite list_sum_indicator. lia.
Qed.

Lemma step_installs (i : Input) (h : Host) :
  count is_quit_and_install (effects (step rt i h)) <=
    if may_install i then 1 else 0.
Proof.
  destruct (may_install i) eqn:Hi.
  - destruct i as [ | | [ | | | | | info] | [|] response | | | | | | | | ];
      try discriminate Hi.
    + destruct h as [[w |] fp]; unfold count; simpl; lia.
    + simpl in Hi. unfold step, install_prompt_then. rewrite Hi.
      unfold count. simpl. lia.
  - apply Nat.eq_le_incl. revert h.
    change (emits_none is_quit_and_install (step rt i)).
    pose proof (ipc_handle_quiet rt is_quit_and_install (fun _ => eq_refl)
                  (fun _ _ _ => eq_refl)).
    pose proof (createWindow_quiet rt is_quit_and_install (fun _ => eq_refl)
                  (fun _ => eq_refl) (fun _ _ => eq_refl) (fun _ => eq_refl)
                  (fun _ => eq_refl) eq_refl (fun _ => eq_refl)
                  (fun _ => eq_refl)).
    quiet_step Hi.
Qed.

(** X7. [quitAndInstall] is called at most once per 'update-downloaded'
    event and per "Yes" on the install prompt, and never otherwise: no
    check, announcement, progress report, updater error, timer tick or UI
    request makes the application quit to install. *)
Theorem installs_need_a_downloaded_update (inputs : list Input) (h : Host) :
  count is_quit_and_install (fst (run rt inputs h))
  <= length (filter may_install inputs).
Proof.
  eapply Nat.le_trans.
  - apply (run_count_le rt is_quit_and_install
             (fun i => if may_install i then 1 else 0)), step_installs.
  - rewrite list_sum_indicator. lia.
Qed.


End Prompts.

(* ================================================================== *)
(** ** The module variables over a run *)
(* ================================================================== *)

Section Variables.

Variable rt : Runtime.

Lemma run_cons_snd (i : Input) (rest : list Input) (h : Host) :
  snd (run rt (i :: rest) h) = snd (run rt rest (host (step rt i h))).
Proof.
  simpl. now destruct (run rt rest (host (step rt i h))).
Qed.

Lemma step_window_kept (i : Input) (h : Host) :
  mainWindow h <> None -> mainWindow (host (step rt i h)) <> None.
Proof.
  intros Hw. destruct (opens_window i) eqn:Hi.
  - rewrite step_opens_window, createWindow_host by exact Hi. discriminate.
  - now rewrite step_keeps_host.
Qed.

Lemma step_flask_kept (i : Input) (h : Host) :
  flaskProcess h <> None -> flaskProcess (host (step rt i h)) <> None.
Proof.
  intros Hw. destruct (opens_window i) eqn:Hi.
  - rewrite step_opens_window, createWindow_host by exact Hi. simpl.
    now destruct (resolved_python rt).
  - now rewrite step_keeps_host.
Qed.

Lemma run_keeps_window (inputs : list Input) (h : Host) :
  mainWindow h <> None -> mainWindow (snd (run rt inputs h)) <> None.
Proof.
  revert h. induction inputs as [| i rest IH]; intros h Hw.
  - exact Hw.
  - rewrite run_cons_snd. now apply IH, step_window_kept.
Qed.

(** X9. The module variables are only ever assigned, never cleared: once
    [mainWindow] is set it stays set through any run (closing every window
    included), and once [flaskProcess] is set it stays set (after the
    sidecar reported an error or was killed included). *)
Theorem module_variables_are_never_cleared (inputs : list Input) (h : Host) :
  (mainWindow h <> None -> mainWindow (snd (run rt inputs h)) <> None)
  /\ (flaskProcess h <> None -> flaskProcess (snd (run rt inputs h)) <> None).
Proof.
  split; [apply run_keeps_window |].
  revert h. induction inputs as [| i rest IH]; intros h Hf.
  - exact Hf.
  - rewrite run_cons_snd. now apply IH, step_flask_kept.
Qed.

Lemma kills_follow_spawns_weaken (seen seen' : list ChildProcess)
      (fx : list Effect) :
  incl seen seen' ->
  kills_follow_spawns seen fx -> kills_follow_spawns seen' fx.
Proof.
  revert seen seen'. induction fx as [| x fx IH]; intros seen seen' Hincl;
    simpl; [auto |].
  destruct x; try (apply IH; assumption).
  - apply IH. intros c [<- | Hc]; [now left | right; now apply Hincl].
  - intros [Hin H]. split; [now apply Hincl | now apply (IH seen)].
Qed.

Lemma kills_follow_spawns_app (seen : list ChildProcess)
      (a b : list Effect) :
  kills_follow_spawns seen a ->
  kills_follow_spawns (spawned a ++ seen) b ->
  kills_follow_spawns seen (a ++ b).
Proof.
  revert seen. induction a as [| x a IH]; intros seen Ha Hb; simpl in *.
  - exact Hb.
  - destruct x; try (apply IH; assumption).
    + apply IH; [exact Ha |].
      eapply kills_follow_spawns_weaken; [| exact Hb].
      intros c Hc. apply in_app_or in Hc. apply in_or_app.
      destruct Hc as [[<- | Hc] | Hc]; [right; now left | now left |].
      right. now right.
    + destruct Ha as [Hin Ha]. split; [exact Hin | now apply IH].
Qed.

Lemma quiet_effects_spawn_nothing (seen : list ChildProcess)
      (fx : list Effect) :
  count (fun x => is_spawn x || is_kill x) fx = 0 ->
  kills_follow_spawns seen fx /\ spawned fx = [].
Proof.
  unfold count. induction fx as [| x fx IH]; simpl; intros H; [auto |].
  destruct x; simpl in H; try discriminate H; now apply IH.
Qed.

Lemma step_kills_follow_spawns (i : Input) (h : Host)
      (seen : list ChildProcess) :
  (forall c, flaskProcess h = Some c -> In c seen) ->
  kills_follow_spawns seen (effects (step rt i h))
  /\ forall c, flaskProcess (host (step rt i h)) = Some c ->
               In c (spawned (effects (step rt i h)) ++ seen).
Proof.
  intros Hinv. destruct (opens_window i) eqn:Hi.
  - rewrite step_opens_window by exact Hi.
    rewrite createWindow_host, createWindow_outcome. cbn [effects].
    rewrite startFlaskServer_outcome.
    destruct (isDev rt), (resolved_python rt) as [p | e]; simpl;
      (split; [exact I |]); intros c Hc;
      first [ injection Hc as <-; now left | now apply Hinv ].
  - rewrite step_keeps_host by exact Hi.
    destruct (is_before_quit i) eqn:Hq.
    + destruct i; try discriminate Hq.
      unfold step, on_before_quit, bind. simpl.
      destruct (flaskProcess h) as [c |] eqn:Hc; simpl.
      * split; [split; [now apply Hinv | exact I] |].
        intros c' [= <-]. now apply Hinv.
      * split; [exact I | discriminate].
    + assert (Hquiet : emits_none (fun x => is_spawn x || is_kill x)
                         (step rt i)).
      { pose proof (ipc_handle_quiet rt (fun x => is_spawn x || is_kill x)
                      (fun _ => eq_refl) (fun _ _ _ => eq_refl)).
        pose proof (autoUpdater_emit_quiet
                      (fun x => is_spawn x || is_kill x)
                      (fun _ _ => eq_refl) (fun _ _ _ _ _ => eq_refl)
                      (fun _ _ => eq_refl) eq_refl).
        quiet_step Hi. }
      destruct (quiet_effects_spawn_nothing seen _ (Hquiet h)) as [Hk Hs].
      split; [exact Hk |]. rewrite Hs. simpl. exact Hinv.
Qed.

(** X11. Quitting kills only a sidecar that this run has spawned: in
    the effects of any run from the initial host, every [kill] is aimed at
    a child spawned earlier in the same run. *)
Theorem kills_come_after_spawns (inputs : list Input) :
  kills_follow_spawns [] (fst (run rt inputs initial_host)).
Proof.
  assert (Hgen : forall inputs h seen,
             (forall c, flaskProcess h = Some c -> In c seen) ->
             kills_follow_spawns seen (fst (run rt inputs h))).
  { clear inputs. induction inputs as [| i rest IH]; intros h seen Hinv;
      simpl; [exact I |].
    destruct (step_kills_follow_spawns i h seen Hinv) as [Hk Hinv'].
    specialize (IH (host (step rt i h)) _ Hinv').
    destruct (run rt rest (host (step rt i h))) as [fx h']. simpl in *.
    now apply kills_follow_spawns_app. }
  apply Hgen. discriminate.
Qed.

End Variables.

(* ================================================================== *)
(** ** The release script: removing development files *)
(* ================================================================== *)

(** Induction on a tree, with the property known of every entry of a
    directory. *)
Lemma Node_nested_ind (P : Node -> Prop) :
  (forall content, P (FileNode content)) ->
  (forall entries,
      Forall (fun e => P (snd e)) entries -> P (DirNode entries)) ->
  forall n, P n.
Proof.
  intros P_file P_dir. fix IH 1. intros [content | entries].
  - apply P_file.
  - apply P_dir. induction entries as [| e rest IHrest].
    + constructor.
    + constructor; [apply IH | exact IHrest].
Qed.





Section RemoveDevFiles.

Lemma survives_under (item : string) (fs : list (list string * string * string)) :
  filter survives (map (under item) fs)
  = if is_dev_dir item then [] else map (under item) (filter survives fs).
Proof.
  induction fs as [| f fs IH]; simpl.
  - now destruct (is_dev_dir item).
  - rewrite IH. unfold survives at 1. simpl.
    destruct (is_dev_dir item); simpl; [reflexivity |].
    fold (survives f). now destruct (survives f).
Qed.

Lemma dir_survives_under (item : string) (ds : list (list string)) :
  filter dir_survives (map (cons item) ds)
  = if is_dev_dir item then [] else map (cons item) (filter dir_survives ds).
Proof.
  induction ds as [| d ds IH]; simpl.
  - now destruct (is_dev_dir item).
  - rewrite IH. unfold dir_survives at 1. simpl.
    destruct (is_dev_dir item); simpl; [reflexivity |].
    fold (dir_survives d). now destruct (dir_survives d).
Qed.

Lemma removeDevFiles_in_files (n : Node) :
  match n with
  | DirNode entries =>
      files_of (removeDevFiles entries) = filter survives (files_of entries)
  | FileNode _ => True
  end.
Proof.
  induction n as [content | entries IH] using Node_nested_ind; [exact I |].
  unfold removeDevFiles, files_of.
  induction IH as [| [item child] rest Hchild _ IHrest]; simpl; [reflexivity |].
  rewrite filter_app, <- IHrest.
  destruct child as [content | sub]; simpl in *.
  - unfold survives at 1. simpl.
    destruct (is_dev_file item); reflexivity.
  - fold (under item). rewrite survives_under.
    destruct (is_dev_dir item); simpl; [reflexivity |].
    fold (under item). unfold removeDevFiles, files_of in Hchild.
    now rewrite Hchild.
Qed.

Lemma removeDevFiles_in_dirs (n : Node) :
  match n with
  | DirNode entries =>
      dirs_of (removeDevFiles entries) = filter dir_survives (dirs_of entries)
  | FileNode _ => True
  end.
Proof.
  induction n as [content | entries IH] using Node_nested_ind; [exact I |].
  unfold removeDevFiles, dirs_of.
  induction IH as [| [item child] rest Hchild _ IHrest]; simpl; [reflexivity |].
  destruct child as [content | sub]; simpl in *.
  - destruct (is_dev_file item); exact IHrest.
  - rewrite filter_app, dir_survives_under, <- IHrest.
    unfold dir_survives at 1. simpl.
    destruct (is_dev_dir item); simpl; [reflexivity |].
    unfold removeDevFiles, dirs_of in Hchild. now rewrite Hchild.
Qed.

(** X12. [removeDevFiles] leaves exactly the files that lie in no
    directory named tests, __tests__, scripts or .vscode and whose name
    does not end in .spec.js, .test.js or .ts: each with the path and the
    content it had, in the order they were in. *)
Theorem removeDevFiles_files (entries : Entries) :
  files_of (removeDevFiles entries) = filter survives (files_of entries).
Proof.
  exact (removeDevFiles_in_files (DirNode entries)).
Qed.

(** X13. [removeDevFiles] removes a directory only for its name or the
    name of a directory above it: every other directory is still there
    afterwards, also when all it held has been removed, and also when its
    own name ends in .ts. *)
Theorem removeDevFiles_dirs (entries : Entries) :
  dirs_of (removeDevFiles entries) = filter dir_survives (dirs_of entries).
Proof.
  exact (removeDevFiles_in_dirs (DirNode entries)).
Qed.

Lemma removeDevFiles_in_idempotent (n : Node) :
  removeDevFiles_in (removeDevFiles_in n) = removeDevFiles_in n.
Proof.
  induction n as [content | entries IH] using Node_nested_ind;
    [reflexivity |].
  simpl. f_equal.
  induction IH as [| [item child] rest Hchild _ IHrest]; simpl; [reflexivity |].
  destruct child as [content | sub].
  - destruct (is_dev_file item) eqn:Hf; simpl; [exact IHrest |].
    now rewrite Hf, IHrest.
  - destruct (is_dev_dir item) eqn:Hd; [exact IHrest |].
    simpl. rewrite Hd. simpl in Hchild. now rewrite Hchild, IHrest.
Qed.

(** X14. Running [removeDevFiles] a second time changes nothing. *)
Theorem removeDevFiles_idempotent (entries : Entries) :
  removeDevFiles (removeDevFiles entries) = removeDevFiles entries.
Proof.
  pose proof (removeDevFiles_in_idempotent (DirNode entries)) as H.
  simpl in H. now injection H.
Qed.

End RemoveDevFiles.



(* ================================================================== *)
(** ** The page: handling a file *)
(* ================================================================== *)

Lemma showError_eq (message : Js.value) (type : string) (p : Page) :
  showError message type p = mkRendered [] (banner message type p) (Normal tt).
Proof.
  unfold showError, banner, rbind, assign. simpl.
  destruct (type =? "success"); reflexivity.
Qed.

Lemma handleFile_finally_eq (p : Page) :
  handleFile_finally p = mkRendered [] (tidied p) (Normal tt).
Proof. reflexivity. Qed.

Section HandleFile.

Variable b : Browser.

Lemma report_result_cases (result : Js.value) (p : Page) :
  (exists e,
      Js.get result "success" = inl e
      /\ report_result b result p = mkRendered [] p (Throw e))
  \/ (exists success path,
         Js.get result "success" = inr success
         /\ Js.truthy success = true
         /\ Js.get result "path" = inr path
         /\ report_result b result p =
              mkRendered []
                (banner (Js.Str ("Analysis complete! Report saved to: "
                                 ++ template_text b path)) "success" p)
                (Normal tt))
  \/ (exists success error,
         Js.get result "success" = inr success
         /\ Js.truthy success = false
         /\ Js.get result "error" = inr error
         /\ report_result b result p =
              mkRendered [] (banner error "error" p) (Normal tt)).
Proof.
  unfold report_result.
  destruct result;
    try (right; right; exists Js.Undefined, Js.Undefined;
         repeat split; reflexivity);
    try (left; eexists; split; reflexivity).
  destruct (Js.truthy (Js.lookup "success" props)) eqn:Hs.
  - right; left. exists (Js.lookup "success" props), (Js.lookup "path" props).
    repeat split; try assumption.
    cbv [rbind rawait rret Js.get].
    cbv [outcome page calls]. rewrite Hs.
    rewrite showError_eq. reflexivity.
  - right; right.
    exists (Js.lookup "success" props), (Js.lookup "error" props).
    repeat split; try assumption.
    cbv [rbind rawait rret Js.get].
    cbv [outcome page calls]. rewrite Hs.
    rewrite showError_eq. reflexivity.
Qed.

(** A reply that has a [name] has a [size]: only null and undefined
    throw on a read. *)
Lemma get_total (v : Js.value) (k k' : string) (x : Js.value) :
  Js.get v k = inr x -> exists y, Js.get v k' = inr y.
Proof.
  destruct v; simpl; try discriminate; eauto.
Qed.

(** Where the [try] block of [handleFile] can end. *)
Lemma handleFile_try_cases (filePath : Js.value) (p : Page) :
  (exists e,
      invoke b "get-file-info" filePath = inl e
      /\ handleFile_try b filePath p =
           mkRendered [Invoke "get-file-info" filePath] (started p) (Throw e))
  \/ (exists file e,
         invoke b "get-file-info" filePath = inr file
         /\ Js.get file "name" = inl e
         /\ handleFile_try b filePath p =
              mkRendered [Invoke "get-file-info" filePath] (started p)
                (Throw e))
  \/ (exists file name size,
         invoke b "get-file-info" filePath = inr file
         /\ Js.get file "name" = inr name
         /\ Js.get file "size" = inr size
         /\ ((exists e,
                 invoke b "analyze-file" filePath = inl e
                 /\ handleFile_try b filePath p =
                      mkRendered
                        [Invoke "get-file-info" filePath; SetInterval 200;
                         Invoke "analyze-file" filePath]
                        (with_file_panel b name size (started p)) (Throw e))
             \/ (exists result,
                    invoke b "analyze-file" filePath = inr result
                    /\ handleFile_try b filePath p =
                         mkRendered
                           [Invoke "get-file-info" filePath; SetInterval 200;
                            Invoke "analyze-file" filePath]
                           (page (report_result b result
                                    (with_file_panel b name size (started p))))
                           (outcome (report_result b result
                                       (with_file_panel b name size
                                          (started p))))
                    /\ calls (report_result b result
                                (with_file_panel b name size (started p)))
                       = []))).
Proof.
  unfold handleFile_try, ipcRenderer_invoke.
  destruct (invoke b "get-file-info" filePath) as [e | file] eqn:Hinfo.
  - left. exists e. split; reflexivity.
  - destruct (Js.get file "name") as [e | name] eqn:Hname.
    + right; left. exists file, e.
      split; [reflexivity |]. split; [exact Hname |].
      destruct file; try discriminate Hname; injection Hname as <-;
        reflexivity.
    + right; right.
      destruct (get_total _ _ "size" _ Hname) as [size Hsize].
      exists file, name, size.
      split; [reflexivity |]. split; [exact Hname |].
      split; [exact Hsize |].
      assert (Hreport : forall result q,
                 calls (report_result b result q) = []).
      { intros result q.
        destruct (report_result_cases result q)
          as [[e [_ ->]] | [[s [x [_ [_ [_ ->]]]]] | [s [x [_ [_ [_ ->]]]]]]];
          reflexivity. }
      destruct (invoke b "analyze-file" filePath) as [e | result] eqn:Han.
      * left. exists e. split; [reflexivity |].
        destruct file; try discriminate Hname;
          injection Hname as <-; injection Hsize as <-; reflexivity.
      * right. exists result. split; [reflexivity |]. split; [| apply Hreport].
        specialize (Hreport result
                      (with_file_panel b name size (started p))).
        destruct file; try discriminate Hname;
          injection Hname as <-; injection Hsize as <-;
          cbv [rbind rcall rawait rret assign calls page outcome Js.get];
          cbv [calls] in Hreport;
          destruct (report_result b result _) as [cs pg out];
          simpl in Hreport; subst cs; destruct out; reflexivity.
Qed.

Lemma handleFile_from_try (filePath : Js.value) (p : Page) :
  handleFile b filePath p =
    match outcome (handleFile_try b filePath p) with
    | Normal _ =>
        mkRendered (calls (handleFile_try b filePath p))
          (tidied (page (handleFile_try b filePath p))) (Normal tt)
    | Throw e =>
        mkRendered (calls (handleFile_try b filePath p))
          (tidied (banner (Js.Str (Js.message e)) "error"
                     (page (handleFile_try b filePath p))))
          (Normal tt)
    end.
Proof.
  unfold handleFile, rfinally, rtry.
  destruct (handleFile_try b filePath p) as [cs pg [[] | e]];
    cbn [outcome page calls].
  - rewrite handleFile_finally_eq. cbn [outcome page calls].
    now rewrite app_nil_r.
  - rewrite showError_eq. cbn [outcome page calls].
    rewrite handleFile_finally_eq. cbn [outcome page calls].
    now rewrite !app_nil_r.
Qed.

(** The four ways [handleFile] can go. *)
Lemma handleFile_cases (filePath : Js.value) (p : Page) :
  (exists e,
      (invoke b "get-file-info" filePath = inl e
       \/ exists file, invoke b "get-file-info" filePath = inr file
                       /\ Js.get file "name" = inl e)
      /\ handleFile b filePath p =
           mkRendered [Invoke "get-file-info" filePath]
             (tidied (banner (Js.Str (Js.message e)) "error" (started p)))
             (Normal tt))
  \/ (exists file name size,
         invoke b "get-file-info" filePath = inr file
         /\ Js.get file "name" = inr name
         /\ Js.get file "size" = inr size
         /\ ((exists e,
                 (invoke b "analyze-file" filePath = inl e
                  \/ exists result,
                       invoke b "analyze-file" filePath = inr result
                       /\ Js.get result "success" = inl e)
                 /\ handleFile b filePath p =
                      mkRendered
                        [Invoke "get-file-info" filePath; SetInterval 200;
                         Invoke "analyze-file" filePath]
                        (tidied (banner (Js.Str (Js.message e)) "error"
                                   (with_file_panel b name size (started p))))
                        (Normal tt))
              \/ (exists result success path,
                     invoke b "analyze-file" filePath = inr result
                     /\ Js.get result "success" = inr success
                     /\ Js.truthy success = true
                     /\ Js.get result "path" = inr path
                     /\ handleFile b filePath p =
                          mkRendered
                            [Invoke "get-file-info" filePath; SetInterval 200;
                             Invoke "analyze-file" filePath]
                            (tidied
                               (banner
                                  (Js.Str
                                     ("Analysis complete! Report saved to: "
                                      ++ template_text b path))
                                  "success"
                                  (with_file_panel b name size (started p))))
                            (Normal tt))
              \/ (exists result success error,
                     invoke b "analyze-file" filePath = inr result
                     /\ Js.get result "success" = inr success
                     /\ Js.truthy success = false
                     /\ Js.get result "error" = inr error
                     /\ handleFile b filePath p =
                          mkRendered
                            [Invoke "get-file-info" filePath; SetInterval 200;
                             Invoke "analyze-file" filePath]
                            (tidied
                               (banner error "error"
                                  (with_file_panel b name size (started p))))
                            (Normal tt)))).
Proof.
  rewrite handleFile_from_try.
  destruct (handleFile_try_cases filePath p)
    as [[e [Hinfo ->]]
       | [[file [e [Hinfo [Hname ->]]]]
         | [file [name [size [Hinfo [Hname [Hsize Hrest]]]]]]]].
  - left. exists e. split; [now left | reflexivity].
  - left. exists e. split; [right; now exists file | reflexivity].
  - right. exists file, name, size. repeat (split; [assumption |]).
    destruct Hrest as [[e [Han ->]] | [result [Han [-> _]]]].
    + left. exists e. split; [now left | reflexivity].
    + destruct (report_result_cases result
                  (with_file_panel b name size (started p)))
        as [[e [Hs ->]]
           | [[success [path [Hs [Ht [Hp ->]]]]]
             | [success [error [Hs [Ht [He ->]]]]]]].
      * left. exists e. split; [right; now exists result | reflexivity].
      * right; left. exists result, success, path. now repeat split.
      * right; right. exists result, success, error. now repeat split.
Qed.


(** X15. However the two requests settle, [handleFile] never throws and
    always ends with the status line and the progress bar hidden, the bar
    reset to 0% and the banner shown, as an error or as a success; its
    first request is always get-file-info for the path it was given, and
    the highlight of the drop zone is not touched. *)
Theorem handleFile_always_settles (filePath : Js.value) (p : Page) :
  outcome (handleFile b filePath p) = Normal tt
  /\ status_display (page (handleFile b filePath p)) = "none"
  /\ progressBar_display (page (handleFile b filePath p)) = "none"
  /\ progressBarFill_width (page (handleFile b filePath p)) = "0%"
  /\ error_display (page (handleFile b filePath p)) = "block"
  /\ (error_className (page (handleFile b filePath p)) = "error"
      \/ error_className (page (handleFile b filePath p)) = "error success")
  /\ dropZone_dragover (page (handleFile b filePath p)) = dropZone_dragover p
  /\ exists rest,
      calls (handleFile b filePath p)
      = Invoke "get-file-info" filePath :: rest.
Proof.
  destruct (handleFile_cases filePath p)
    as [[e [_ ->]]
       | [file [name [size [_ [_ [_ [[e [_ ->]]
                                    | [[r [s [x [_ [_ [_ [_ ->]]]]]]]
                                      | [r [s [x [_ [_ [_ [_ ->]]]]]]]]]]]]]]]];
    simpl; repeat split; eauto.
Qed.

(** X16. The banner reports success only when it was earned: if
    [handleFile] ends with the class 'error success', then both requests
    resolved, the reply of analyze-file had a truthy [success], the text
    shown is 'Analysis complete! Report saved to: ' followed by the
    [path] of that reply, and exactly three calls were made:
    get-file-info, the start of the progress interval, analyze-file. *)
Theorem handleFile_success_is_earned (filePath : Js.value) (p : Page) :
  error_className (page (handleFile b filePath p)) = "error success" ->
  exists file result success path,
    invoke b "get-file-info" filePath = inr file
    /\ invoke b "analyze-file" filePath = inr result
    /\ Js.get result "success" = inr success
    /\ Js.truthy success = true
    /\ Js.get result "path" = inr path
    /\ error_text (page (handleFile b filePath p))
       = Js.Str ("Analysis complete! Report saved to: "
                 ++ template_text b path)
    /\ calls (handleFile b filePath p)
       = [Invoke "get-file-info" filePath; SetInterval 200;
          Invoke "analyze-file" filePath].
Proof.
  destruct (handleFile_cases filePath p)
    as [[e [_ ->]]
       | [file [name [size [Hinfo [_ [_ [[e [_ ->]]
                                    | [[r [s [x [Han [Hs [Ht [Hx ->]]]]]]]
                                      | [r [s [x [_ [_ [_ [_ ->]]]]]]]]]]]]]]]];
    simpl; try discriminate.
  intros _. exists file, r, s, x. now repeat split.
Qed.

(** X17. When get-file-info is rejected, nothing else is requested: no
    progress interval is started and analyze-file is never invoked; the
    banner shows the message of the rejection as an error and the file
    panel is left as it was. *)
Theorem handleFile_stops_at_rejected_info
        (filePath : Js.value) (p : Page) (e : Js.Error) :
  invoke b "get-file-info" filePath = inl e ->
  calls (handleFile b filePath p) = [Invoke "get-file-info" filePath]
  /\ error_text (page (handleFile b filePath p)) = Js.Str (Js.message e)
  /\ error_className (page (handleFile b filePath p)) = "error"
  /\ fileName_text (page (handleFile b filePath p)) = fileName_text p
  /\ fileSize_text (page (handleFile b filePath p)) = fileSize_text p
  /\ fileInfo_display (page (handleFile b filePath p)) = fileInfo_display p.
Proof.
  intros H.
  destruct (handleFile_cases filePath p)
    as [[e' [[He | [file [He _]]] ->]] | [file [name [size [He _]]]]];
    rewrite H in He; try discriminate He.
  injection He as <-. simpl. now repeat split.
Qed.


End HandleFile.

(** X19. The progress interval of [handleFile] writes the widths 5%,
    10%, and so on to 100% and clears itself in its twentieth callback:
    however long it is left running, it writes no other width and no
    width above 100%. *)
Theorem progress_interval_stops (n : nat) :
  interval_widths n 0 =
    firstn n ["5%"; "10%"; "15%"; "20%"; "25%"; "30%"; "35%"; "40%"; "45%";
              "50%"; "55%"; "60%"; "65%"; "70%"; "75%"; "80%"; "85%"; "90%";
              "95%"; "100%"]
  /\ length (interval_widths n 0) = Nat.min n 20.
Proof.
  do 21 (destruct n as [| n]; [split; reflexivity |]).
  split; reflexivity.
Qed.

(* ================================================================== *)
(** ** The page in front of the handlers of main.js *)
(* ================================================================== *)

Section Replies.

Variable rt : Runtime.

Lemma ipc_handle_get_file_info (arg : string) :
  ipc_handle rt "get-file-info" arg = get_file_info rt arg.
Proof. reflexivity. Qed.

Lemma ipc_handle_analyze_file (arg : string) :
  ipc_handle rt "analyze-file" arg = analyze_file rt arg.
Proof. reflexivity. Qed.

Lemma get_file_info_completion (filePath : string) (h : Host) :
  completion (get_file_info rt filePath h) =
    match fs_stat rt filePath with
    | inr stats =>
        Normal (Js.Obj [("name", Js.Str (path_basename rt filePath));
                        ("size", Js.Num (inject_Z (size stats)));
                        ("lastModified", Js.Date (mtime stats))])
    | inl e => Throw e
    end.
Proof.
  unfold get_file_info, try_catch, bind, await.
  destruct (fs_stat rt filePath); reflexivity.
Qed.

(** The two shapes of a reply of analyze-file. *)
Lemma analyze_file_reply (filePath : string) (h : Host) :
  (exists props,
      axios_post rt analyze_url filePath = Resolved (Js.Obj props)
      /\ Js.truthy (Js.lookup "success" props) = true
      /\ completion (analyze_file rt filePath h) =
           Normal (Js.Obj [("success", Js.Bool true);
                           ("path", Js.lookup "reportPath" props)]))
  \/ (exists e,
         Js.truthy e = true
         /\ completion (analyze_file rt filePath h) =
              Normal (Js.Obj [("success", Js.Bool false); ("error", e)])
         /\ forall props,
             axios_post rt analyze_url filePath = Resolved (Js.Obj props) ->
             Js.truthy (Js.lookup "success" props) = false).
Proof.
  assert (Hcaught : forall e : Js.Error,
             Js.truthy (Js.or (Js.Str (Js.message e))
                              (Js.Str "Failed to analyze file")) = true)
    by (intros e; now apply or_truthy).
  destruct (axios_post rt analyze_url filePath) as [data | err] eqn:H.
  - destruct data;
      try (right; exists (Js.Str "Analysis failed");
           split; [reflexivity |]; split; [| discriminate];
           now rewrite (analyze_file_primitive _ _ _ _ H eq_refl eq_refl)).
    + right. eexists. split; [apply Hcaught |]. split; [| discriminate].
      now rewrite (analyze_file_nullish _ _ _ _ H (or_introl eq_refl)).
    + right. eexists. split; [apply Hcaught |]. split; [| discriminate].
      now rewrite (analyze_file_nullish _ _ _ _ H (or_intror eq_refl)).
    + rewrite (analyze_file_object _ _ _ _ H).
      destruct (Js.truthy (Js.lookup "success" props)) eqn:Hs.
      * left. exists props. now repeat split.
      * right. eexists. split; [| split; [reflexivity |]].
        -- now apply or_truthy.
        -- intros props' [= <-]. exact Hs.
  - right. eexists. split; [apply Hcaught |]. split; [| discriminate].
    rewrite (analyze_file_caught rt filePath h err) by (now rewrite H).
    reflexivity.
Qed.

(** The reply when the sidecar keeps the [error] of a failure a
    string. *)
Lemma analyze_file_reply_text (filePath : string) (h : Host) :
  (forall props,
      axios_post rt analyze_url filePath = Resolved (Js.Obj props) ->
      Js.truthy (Js.lookup "success" props) = false ->
      Js.truthy (Js.lookup "error" props) = true ->
      exists s, Js.lookup "error" props = Js.Str s) ->
  (exists path,
      completion (analyze_file rt filePath h) =
        Normal (Js.Obj [("success", Js.Bool true); ("path", path)]))
  \/ (exists msg,
         msg <> ""
         /\ completion (analyze_file rt filePath h)
            = Normal (failure_reply msg)).
Proof.
  intros Htext.
  assert (Hcaught : forall e : Js.Error,
             exists msg,
               msg <> ""
               /\ Js.or (Js.Str (Js.message e))
                        (Js.Str "Failed to analyze file") = Js.Str msg).
  { intros e.
    destruct (or_default_nonempty (Js.message e) "Failed to analyze file")
      as [msg [Hm Hne]]; [discriminate |].
    exists msg. now split. }
  destruct (axios_post rt analyze_url filePath) as [data | err] eqn:H.
  - destruct data;
      try (right; exists "Analysis failed"; split; [discriminate |];
           now rewrite (analyze_file_primitive _ _ _ _ H eq_refl eq_refl)).
    + right.
      destruct (Hcaught (Js.TypeError_read Js.Undefined "success"))
        as [msg [Hne Hm]].
      exists msg. split; [exact Hne |].
      rewrite (analyze_file_nullish _ _ _ _ H (or_introl eq_refl)).
      cbn [completion]. unfold failure_reply. now rewrite Hm.
    + right.
      destruct (Hcaught (Js.TypeError_read Js.Null "success"))
        as [msg [Hne Hm]].
      exists msg. split; [exact Hne |].
      rewrite (analyze_file_nullish _ _ _ _ H (or_intror eq_refl)).
      cbn [completion]. unfold failure_reply. now rewrite Hm.
    + rewrite (analyze_file_object _ _ _ _ H). cbn [completion].
      destruct (Js.truthy (Js.lookup "success" props)) eqn:Hs.
      * left. eexists. reflexivity.
      * right. unfold Js.or.
        destruct (Js.truthy (Js.lookup "error" props)) eqn:He.
        -- destruct (Htext props eq_refl Hs He) as [s Heq].
           exists s. rewrite Heq in He |- *.
           split; [now apply truthy_Str | reflexivity].
        -- exists "Analysis failed". split; [discriminate | reflexivity].
  - right. destruct (Hcaught err) as [msg [Hne Hm]].
    exists msg. split; [exact Hne |].
    rewrite (analyze_file_caught rt filePath h err) by (now rewrite H).
    cbn [completion]. unfold failure_reply. now rewrite Hm.
Qed.

(** X20. The reply of analyze-file is the success variant exactly when
    the body of the response is an object whose [success] is truthy, be
    it a boolean or not; its [path] is then whatever [reportPath] holds,
    [undefined] when the body has none. *)
Theorem analyze_file_succeeds_iff (filePath : string) (h : Host) :
  ((exists path,
       completion (analyze_file rt filePath h) =
         Normal (Js.Obj [("success", Js.Bool true); ("path", path)]))
   <-> exists props,
        axios_post rt analyze_url filePath = Resolved (Js.Obj props)
        /\ Js.truthy (Js.lookup "success" props) = true)
  /\ forall props,
      axios_post rt analyze_url filePath = Resolved (Js.Obj props) ->
      Js.truthy (Js.lookup "success" props) = true ->
      completion (analyze_file rt filePath h) =
        Normal (Js.Obj [("success", Js.Bool true);
                        ("path", Js.lookup "reportPath" props)]).
Proof.
  destruct (analyze_file_reply filePath h)
    as [[props [H [Hs Hc]]] | [e [He [Hc Hno]]]].
  - split.
    + split; [intros _; now exists props | intros _; eauto].
    + intros props' H' _. rewrite H in H'. now injection H' as <-.
  - split.
    + split.
      * intros [path Hp]. rewrite Hc in Hp. discriminate Hp.
      * intros [props [H Hs]]. rewrite (Hno _ H) in Hs. discriminate Hs.
    + intros props H Hs. rewrite (Hno _ H) in Hs. discriminate Hs.
Qed.

End Replies.

Section EndToEnd.

Variable b : Browser.
Variable rt : Runtime.
Variable h : Host.
Variable remote : string -> Js.Error -> Js.Error.
Hypothesis Hserved : served_by b rt h remote.

Lemma invoke_get_file_info (path : string) :
  invoke b "get-file-info" (Js.Str path) =
    match fs_stat rt path with
    | inr stats =>
        inr (Js.Obj [("name", Js.Str (path_basename rt path));
                     ("size", Js.Num (inject_Z (size stats)));
                     ("lastModified", Js.Date (mtime stats))])
    | inl e => inl (remote "get-file-info" e)
    end.
Proof.
  destruct Hserved as [Hinvoke _].
  rewrite Hinvoke, ipc_handle_get_file_info, get_file_info_completion.
  now destruct (fs_stat rt path).
Qed.

Lemma invoke_analyze_file (path : string) :
  invoke b "analyze-file" (Js.Str path) =
    match completion (analyze_file rt path h) with
    | Normal v => inr v
    | Throw e => inl (remote "analyze-file" e)
    end.
Proof.
  destruct Hserved as [Hinvoke _].
  now rewrite Hinvoke, ipc_handle_analyze_file.
Qed.

(** X21. A file that cannot be read never reaches the sidecar: when
    [stat] fails on the path, the page makes the one request
    get-file-info, shows the message of the error that Electron makes of
    the thrown one, as an error, and never invokes analyze-file. *)
Theorem unreadable_file_is_not_uploaded
        (path : string) (p : Page) (e : Js.Error) :
  fs_stat rt path = inl e ->
  handleFile b (Js.Str path) p =
    mkRendered [Invoke "get-file-info" (Js.Str path)]
      (tidied (banner (Js.Str (Js.message (remote "get-file-info" e)))
                 "error" (started p)))
      (Normal tt).
Proof.
  intros Hstat.
  pose proof (invoke_get_file_info path) as Hinfo. rewrite Hstat in Hinfo.
  destruct (handleFile_cases b (Js.Str path) p)
    as [[e' [[He | [file [He _]]] ->]] | [file [name [size [He _]]]]];
    rewrite Hinfo in He; try discriminate He.
  now injection He as <-.
Qed.

(** X22. The page and the handler agree on the report path: for a
    readable file and a response whose [success] is truthy, the page fills
    the file panel with the base name and the size in bytes and ends with
    the success banner 'Analysis complete! Report saved to: ' followed by
    the [reportPath] of the response, which analyze-file handed over as
    [path]. *)
Theorem report_path_reaches_the_banner
        (path : string) (p : Page) (content : list Byte.byte) (m : Z)
        (props : list (string * Js.value)) :
  fs_entry rt path = File content m ->
  axios_post rt analyze_url path = Resolved (Js.Obj props) ->
  Js.truthy (Js.lookup "success" props) = true ->
  handleFile b (Js.Str path) p =
    mkRendered
      [Invoke "get-file-info" (Js.Str path); SetInterval 200;
       Invoke "analyze-file" (Js.Str path)]
      (tidied
         (banner
            (Js.Str ("Analysis complete! Report saved to: "
                     ++ template_text b (Js.lookup "reportPath" props)))
            "success"
            (with_file_panel b (Js.Str (path_basename rt path))
               (Js.Num (inject_Z (Z.of_nat (length content))))
               (started p))))
      (Normal tt).
Proof.
  intros Hfile Hpost Hs.
  pose proof (invoke_get_file_info path) as Hinfo.
  unfold fs_stat in Hinfo. rewrite Hfile in Hinfo. simpl in Hinfo.
  pose proof (invoke_analyze_file path) as Han.
  rewrite (analyze_file_object _ _ _ _ Hpost), Hs in Han. simpl in Han.
  destruct (handleFile_cases b (Js.Str path) p)
    as [[e [[He | [file [He Hn]]] _]]
       | [file [name [size [He [Hn [Hz Hrest]]]]]]];
    rewrite Hinfo in He; try discriminate He.
  - injection He as <-. discriminate Hn.
  - injection He as <-. injection Hn as <-. injection Hz as <-.
    destruct Hrest
      as [[e [[Ha | [r [Ha Hr]]] _]]
         | [[r [s [x [Ha [Hr [Ht [Hx ->]]]]]]]
           | [r [s [x [Ha [Hr [Ht _]]]]]]]];
      rewrite Han in Ha; try discriminate Ha; injection Ha as <-.
    + discriminate Hr.
    + now injection Hx as <-.
    + injection Hr as <-. discriminate Ht.
Qed.

(** X23. For a readable file, and a sidecar whose failures carry a
    string as [error] or none at all, the banner never comes up empty:
    whatever else the sidecar does (refuse the connection, answer with a
    status outside 2xx, answer with something that is no object, report
    a failure with or without a message), the page ends with the file
    panel filled in and with the success banner or an error banner, and
    the text of the banner is a string that is not empty. *)
Theorem banner_is_never_empty
        (path : string) (p : Page) (content : list Byte.byte) (m : Z) :
  fs_entry rt path = File content m ->
  (forall props,
      axios_post rt analyze_url path = Resolved (Js.Obj props) ->
      Js.truthy (Js.lookup "success" props) = false ->
      Js.truthy (Js.lookup "error" props) = true ->
      exists s, Js.lookup "error" props = Js.Str s) ->
  exists text type,
    text <> ""
    /\ (type = "success" \/ type = "error")
    /\ page (handleFile b (Js.Str path) p) =
         tidied
           (banner (Js.Str text) type
              (with_file_panel b (Js.Str (path_basename rt path))
                 (Js.Num (inject_Z (Z.of_nat (length content))))
                 (started p))).
Proof.
  intros Hfile Htext.
  pose proof (invoke_get_file_info path) as Hinfo.
  unfold fs_stat in Hinfo. rewrite Hfile in Hinfo. simpl in Hinfo.
  pose proof (invoke_analyze_file path) as Han.
  destruct (handleFile_cases b (Js.Str path) p)
    as [[e [[He | [file [He Hn]]] _]]
       | [file [name [size [He [Hn [Hz Hrest]]]]]]];
    rewrite Hinfo in He; try discriminate He.
  - injection He as <-. discriminate Hn.
  - injection He as <-. injection Hn as <-. injection Hz as <-.
    destruct Hrest
      as [[e [[Ha | [r [Ha Hr]]] _]]
         | [[r [s [x [Ha [Hr [Ht [Hx ->]]]]]]]
           | [r [s [x [Ha [Hr [Ht [Hx ->]]]]]]]]];
      rewrite Han in Ha.
    + destruct (analyze_file_never_throws rt path h) as [log [v Hv]].
      rewrite Hv in Ha. discriminate Ha.
    + destruct (analyze_file_reply rt path h)
        as [[props [_ [_ Hc]]] | [e' [_ [Hc _]]]];
        rewrite Hc in Ha; injection Ha as <-; discriminate Hr.
    + eexists. exists "success".
      split; [| split; [now left | reflexivity]]. discriminate.
    + destruct (analyze_file_reply_text rt path h Htext)
        as [[reportPath Hc] | [msg [Hne Hc]]];
        rewrite Hc in Ha; injection Ha as <-.
      * injection Hr as <-. discriminate Ht.
      * injection Hx as <-. exists msg, "error".
        split; [exact Hne |]. split; [now right | reflexivity].
Qed.

(** X24. Choosing a file: when the file chooser is cancelled or hands
    back no path, the click makes the one request select-file and leaves
    the page as it was; when it hands back paths, [handleFile] runs on
    the first of them and on no other. *)
Theorem on_select_click_takes_first_path (p : Page) :
  match canceled (showOpenDialog rt), filePaths (showOpenDialog rt) with
  | false, path :: _ =>
      path <> "" ->
      calls (on_select_click b p)
      = Invoke "select-file" Js.Undefined
          :: calls (handleFile b (Js.Str path) p)
      /\ page (on_select_click b p) = page (handleFile b (Js.Str path) p)
  | _, _ =>
      on_select_click b p =
        mkRendered [Invoke "select-file" Js.Undefined] p (Normal tt)
  end.
Proof.
  destruct Hserved as [_ Hselect].
  unfold on_select_click, ipcRenderer_invoke.
  unfold select_file in Hselect.
  destruct (canceled (showOpenDialog rt)),
           (filePaths (showOpenDialog rt)) as [| path rest];
    simpl in Hselect; rewrite Hselect; try reflexivity.
  intros Hpath. apply truthy_Str in Hpath.
  cbv [rbind rcall rawait rret]. cbn [outcome page calls].
  rewrite Hpath. split; reflexivity.
Qed.

End EndToEnd.


(* ================================================================== *)
(** ** The release script: building the release directory *)
(* ================================================================== *)

Lemma lookup_put_same (name : string) (n : Node) (entries : Entries) :
  lookup_entry name (put_entry name n entries) = Some n.
Proof.
  induction entries as [| [name' n'] rest IH]; simpl.
  - now rewrite String.eqb_refl.
  - destruct (name =? name') eqn:E; simpl.
    + now rewrite String.eqb_refl.
    + now rewrite E.
Qed.

Lemma lookup_put_other (name name' : string) (n : Node) (entries : Entries) :
  name <> name' ->
  lookup_entry name (put_entry name' n entries) = lookup_entry name entries.
Proof.
  intros Hne. induction entries as [| [k v] rest IH]; simpl.
  - destruct (String.eqb_spec name name'); [contradiction | reflexivity].
  - destruct (String.eqb_spec name' k) as [-> | Hk]; simpl.
    + destruct (String.eqb_spec name k); [contradiction | reflexivity].
    + now rewrite IH.
Qed.

Lemma lookup_none (name : string) (entries : Entries) :
  lookup_entry name entries = None <-> ~ In name (map fst entries).
Proof.
  induction entries as [| [k v] rest IH]; simpl.
  - split; auto.
  - destruct (String.eqb_spec name k) as [-> | Hk].
    + split; [discriminate | intros H; exfalso; apply H; now left].
    + rewrite IH. split.
      * intros H [Hk' | Hin]; [now symmetry in Hk' | contradiction].
      * intros H Hin. apply H. now right.
Qed.

Lemma put_fresh (name : string) (n : Node) (entries : Entries) :
  lookup_entry name entries = None ->
  put_entry name n entries = (entries ++ [(name, n)])%list.
Proof.
  induction entries as [| [k v] rest IH]; simpl; [reflexivity |].
  destruct (name =? k); [discriminate |]. intros H. now rewrite IH.
Qed.

Lemma put_names (name : string) (n : Node) (entries : Entries) :
  incl (map fst (put_entry name n entries)) (name :: map fst entries).
Proof.
  induction entries as [| [k v] rest IH]; simpl.
  - intros x [<- | []]. now left.
  - destruct (String.eqb_spec name k) as [-> | Hk]; simpl.
    + intros x [<- | Hin]; [now left | right; now right].
    + intros x [<- | Hin]; [right; now left |].
      destruct (IH x Hin) as [<- | Hin']; [now left | right; now right].
Qed.

Lemma lookup_app_fresh (name : string) (a b : Entries) :
  lookup_entry name a = None ->
  lookup_entry name (a ++ b)%list = lookup_entry name b.
Proof.
  induction a as [| [k v] rest IH]; simpl; [reflexivity |].
  destruct (name =? k); [discriminate | exact IH].
Qed.

Lemma lookup_remove_other (name gone : string) (entries : Entries) :
  name <> gone ->
  lookup_entry name (remove_entry gone entries) = lookup_entry name entries.
Proof.
  intros Hne. unfold remove_entry.
  induction entries as [| [k v] rest IH]; simpl; [reflexivity |].
  destruct (String.eqb_spec k gone) as [-> | Hk]; simpl.
  - destruct (String.eqb_spec name gone); [contradiction | exact IH].
  - now rewrite IH.
Qed.

Lemma lookup_remove_same (name : string) (entries : Entries) :
  lookup_entry name (remove_entry name entries) = None.
Proof.
  unfold remove_entry.
  induction entries as [| [k v] rest IH]; simpl; [reflexivity |].
  destruct (String.eqb_spec k name) as [-> | Hk]; simpl; [exact IH |].
  destruct (String.eqb_spec name k) as [-> | _]; [contradiction | exact IH].
Qed.

Lemma unique_names_each (entries : Entries) :
  unique_names (DirNode entries) <->
  NoDup (map fst entries) /\ Forall (fun e => unique_names (snd e)) entries.
Proof.
  simpl. split; intros [Hnd Hall]; (split; [exact Hnd |]).
  - clear Hnd. induction entries as [| e rest IH]; constructor.
    + apply Hall.
    + apply IH, Hall.
  - clear Hnd. induction Hall as [| e rest He _ IH]; [exact I |].
    split; assumption.
Qed.

Lemma lookup_unique (name : string) (entries : Entries) (n : Node) :
  unique_names (DirNode entries) ->
  lookup_entry name entries = Some n -> unique_names n.
Proof.
  rewrite unique_names_each. intros [_ Hall].
  induction Hall as [| [k v] rest Hv _ IH]; simpl; [discriminate |].
  destruct (name =? k); [intros [= <-]; exact Hv | exact IH].
Qed.

Lemma copy_loop_fresh (recur : Node -> option Node -> Fault + Node)
      (items dest : Entries) :
  NoDup (map fst dest ++ map fst items) ->
  Forall (fun e => match snd e with
                   | DirNode _ => recur (snd e) None = inr (snd e)
                   | FileNode _ => True
                   end) items ->
  copy_loop recur items dest = inr (dest ++ items)%list.
Proof.
  intros Hnd Hall. revert dest Hnd.
  induction Hall as [| [item child] rest Hchild _ IH]; intros dest Hnd; simpl.
  - now rewrite app_nil_r.
  - assert (Hfresh : lookup_entry item dest = None).
    { apply lookup_none. intros Hin.
      apply NoDup_remove_2 in Hnd. apply Hnd.
      apply in_or_app. now left. }
    assert (Hnext : forall n,
               NoDup (map fst (dest ++ [(item, n)]) ++ map fst rest)).
    { intros n. rewrite map_app, <- app_assoc. exact Hnd. }
    destruct child as [content | sub]; simpl in *.
    + unfold copyFileSync. rewrite Hfresh, put_fresh by exact Hfresh.
      rewrite IH by apply Hnext. now rewrite <- app_assoc.
    + rewrite Hfresh, Hchild, put_fresh by exact Hfresh.
      rewrite IH by apply Hnext. now rewrite <- app_assoc.
Qed.

Lemma copyDir_fresh (src : Node) :
  unique_names src ->
  match src with
  | DirNode _ => copyDir src None = inr src
  | FileNode _ => True
  end.
Proof.
  induction src as [content | entries IH] using Node_nested_ind;
    [exact (fun _ => I) |].
  intros Hu. apply unique_names_each in Hu. destruct Hu as [Hnd Hall].
  simpl. rewrite copy_loop_fresh; [reflexivity | exact Hnd |].
  rewrite Forall_forall in *. intros e He.
  specialize (IH e He (Hall e He)).
  destruct (snd e); [exact I | exact IH].
Qed.

(** X25. Copying a directory to a place where nothing is yet gives an
    exact copy: the same names, nested the same way, with the same
    contents. *)
Theorem copyDir_copies_exactly (entries : Entries) :
  unique_names (DirNode entries) ->
  copyDir (DirNode entries) None = inr (DirNode entries).
Proof.
  exact (copyDir_fresh (DirNode entries)).
Qed.

Lemma copy_names (src : option Node) (name : string)
      (parent parent' : Entries) :
  copy src name parent = inr parent' ->
  incl (map fst parent') (name :: map fst parent).
Proof.
  unfold copy, copyFileSync.
  destruct src as [[content | entries] |].
  - destruct (lookup_entry name parent) as [[c | es] |]; intros [= <-];
      apply put_names.
  - destruct (copyDir (DirNode entries) (lookup_entry name parent));
      intros [= <-]. apply put_names.
  - intros [= <-]. intros x Hx. now right.
Qed.

Lemma copy_items_names (cwd : Entries) (items : list string)
      (release release' : Entries) :
  copy_items cwd items release = inr release' ->
  incl (map fst release') (items ++ map fst release).
Proof.
  revert release. induction items as [| item rest IH]; intros release; simpl.
  - intros [= <-]. apply incl_refl.
  - destruct (copy (lookup_entry item cwd) item release) as [| r] eqn:Hcopy;
      [discriminate |].
    intros Hrest x Hx. apply (IH _ Hrest) in Hx.
    apply in_app_or in Hx. destruct Hx as [Hx | Hx].
    + right. apply in_or_app. now left.
    + apply (copy_names _ _ _ _ Hcopy) in Hx.
      destruct Hx as [<- | Hx]; [now left |].
      right. apply in_or_app. now right.
Qed.

Lemma sweep_names (recur : Node -> Node) (entries : Entries) :
  incl (map fst (sweep recur entries)) (map fst entries).
Proof.
  induction entries as [| [item child] rest IH]; simpl; [apply incl_refl |].
  destruct child; [destruct (is_dev_file item) | destruct (is_dev_dir item)];
    simpl; intros x Hx.
  - right. now apply IH.
  - destruct Hx as [<- | Hx]; [now left | right; now apply IH].
  - right. now apply IH.
  - destruct Hx as [<- | Hx]; [now left | right; now apply IH].
Qed.

(** An entry whose name is none of the removed ones is found after the
    sweep as it was found before, swept in its turn. *)
Lemma lookup_sweep (name : string) (entries : Entries) :
  is_dev_dir name = false ->
  is_dev_file name = false ->
  lookup_entry name (removeDevFiles entries)
  = option_map removeDevFiles_in (lookup_entry name entries).
Proof.
  intros Hd Hf. unfold removeDevFiles.
  induction entries as [| [item child] rest IH]; simpl; [reflexivity |].
  destruct (String.eqb_spec name item) as [<- | Hne].
  - destruct child; [rewrite Hf | rewrite Hd]; simpl;
      now rewrite String.eqb_refl.
  - destruct child; [destruct (is_dev_file item) | destruct (is_dev_dir item)];
      simpl; try exact IH;
      (destruct (String.eqb_spec name item); [contradiction | exact IH]).
Qed.

Lemma copy_items_spec (cwd : Entries) :
  unique_names (DirNode cwd) ->
  forall items release,
    NoDup items ->
    (forall item, In item items -> lookup_entry item release = None) ->
    exists release',
      copy_items cwd items release = inr release'
      /\ forall name,
          lookup_entry name release' =
            if existsb (String.eqb name) items
            then lookup_entry name cwd
            else lookup_entry name release.
Proof.
  intros Hu items. induction items as [| item rest IH];
    intros release Hnd Hfresh; simpl.
  - exists release. split; reflexivity.
  - apply NoDup_cons_iff in Hnd. destruct Hnd as [Hnotin Hnd].
    assert (Hitem : lookup_entry item release = None)
      by (apply Hfresh; now left).
    assert (Hother : forall x, In x rest -> x <> item)
      by (intros x Hx ->; contradiction).
    assert (Hcopy : exists release1,
               copy (lookup_entry item cwd) item release = inr release1
               /\ lookup_entry item release1 = lookup_entry item cwd
               /\ forall x, x <> item ->
                            lookup_entry x release1 = lookup_entry x release).
    { unfold copy, copyFileSync.
      destruct (lookup_entry item cwd) as [[content | entries] |] eqn:Hsrc.
      - rewrite Hitem. eexists. split; [reflexivity |]. split.
        + apply lookup_put_same.
        + intros x Hx. now apply lookup_put_other.
      - rewrite Hitem.
        pose proof (copyDir_fresh _ (lookup_unique _ _ _ Hu Hsrc)) as Hdir.
        simpl in Hdir. simpl. rewrite Hdir.
        eexists. split; [reflexivity |]. split.
        + apply lookup_put_same.
        + intros x Hx. now apply lookup_put_other.
      - exists release. split; [reflexivity |]. split; [exact Hitem | reflexivity]. }
    destruct Hcopy as [release1 [-> [Hsame Hkeep]]].
    destruct (IH release1 Hnd) as [release' [Hrun Hlook]].
    { intros x Hx. rewrite Hkeep by now apply Hother.
      apply Hfresh. now right. }
    exists release'. split; [exact Hrun |].
    intros name. rewrite Hlook.
    destruct (String.eqb_spec name item) as [-> | Hne]; simpl.
    + destruct (existsb (String.eqb item) rest); [reflexivity | exact Hsame].
    + destruct (existsb (String.eqb name) rest); [reflexivity |].
      now apply Hkeep.
Qed.

Lemma unique_names_remove (name : string) (entries : Entries) :
  unique_names (DirNode entries) ->
  unique_names (DirNode (remove_entry name entries)).
Proof.
  rewrite !unique_names_each. unfold remove_entry. intros [Hnd Hall]. split.
  - clear Hall. induction entries as [| [k v] rest IH]; simpl;
      [constructor |].
    apply NoDup_cons_iff in Hnd. destruct Hnd as [Hk Hnd].
    destruct (negb (k =? name)); simpl; [| now apply IH].
    constructor; [| now apply IH].
    intros Hin. apply Hk. apply in_map_iff in Hin.
    destruct Hin as [e [He Hin]]. apply filter_In in Hin.
    destruct Hin as [Hin _]. subst k.
    change (In (fst e) (map fst rest)). now apply in_map.
  - apply Forall_forall. intros e He. apply filter_In in He.
    rewrite Forall_forall in Hall. now apply Hall.
Qed.

Section CreateRelease.

Variable j : Json.

Lemma createRelease_inv (project project' : Entries) :
  createRelease j project = inr project' ->
  exists copied release text pkg pkg',
    copy_items (remove_entry "release" project)
      (runtimeItems ++ ["README.md"; "LICENSE"]) [] = inr copied
    /\ lookup_entry "package.json" (remove_entry "release" project)
       = Some (FileNode text)
    /\ JSON_parse j text = inr pkg
    /\ delete_property "devDependencies" pkg = inr pkg'
    /\ release = put_entry "package.json"
                   (FileNode (JSON_stringify j pkg')) copied
    /\ project' = (remove_entry "release" project
                     ++ [("release", DirNode (removeDevFiles release))])%list.
Proof.
  unfold createRelease, cleanPackageJson.
  destruct (copy_items _ _ _) as [| copied] eqn:Hcopy; [discriminate |].
  destruct (lookup_entry "package.json" (remove_entry "release" project))
    as [[text | es] |] eqn:Hpkg; try discriminate.
  destruct (JSON_parse j text) as [| pkg] eqn:Hparse; [discriminate |].
  destruct (delete_property "devDependencies" pkg) as [| pkg'] eqn:Hdel;
    [discriminate |].
  destruct (lookup_entry "package.json" copied) as [[c | es] |];
    try discriminate; intros [= <-];
    exists copied; eexists; exists text, pkg, pkg';
    repeat split; assumption || reflexivity.
Qed.

(** X26. What a release holds: when [createRelease] succeeds, the old
    release directory is gone whatever it held, the rest of the working
    directory is as it was, and the new release directory holds no name
    besides dist, index.html, main.js, assets, vibecheck,
    user_guide.html, README.md, LICENSE and package.json.  In it no
    directory is named tests, __tests__, scripts or .vscode or lies in
    one that is, and no file lies in such a directory or has a name
    ending in .spec.js, .test.js or .ts (the endings are tested on
    files, not on directories). *)
Theorem createRelease_ships_only_runtime_items
        (project project' : Entries) :
  createRelease j project = inr project' ->
  exists release,
    project' = (remove_entry "release" project
                  ++ [("release", DirNode release)])%list
    /\ lookup_entry "release" project' = Some (DirNode release)
    /\ incl (map fst release) shipped_names
    /\ Forall (fun f => survives f = true) (files_of release)
    /\ Forall (fun d => dir_survives d = true) (dirs_of release).
Proof.
  intros H.
  destruct (createRelease_inv _ _ H)
    as [copied [release [text [pkg [pkg' [Hcopy [_ [_ [_ [-> ->]]]]]]]]]].
  eexists. split; [reflexivity |]. split; [| split; [| split]].
  - rewrite lookup_app_fresh by apply lookup_remove_same.
    simpl. reflexivity.
  - intros x Hx. apply sweep_names, put_names in Hx.
    unfold shipped_names.
    destruct Hx as [<- | Hx].
    + apply in_or_app. right. simpl. auto.
    + apply (copy_items_names _ _ _ _ Hcopy) in Hx.
      rewrite app_nil_r in Hx. apply in_app_or in Hx. apply in_or_app.
      destruct Hx as [Hx | Hx]; [now left | right].
      simpl in *. tauto.
  - pose proof (removeDevFiles_in_files
                  (DirNode (put_entry "package.json"
                              (FileNode (JSON_stringify j pkg')) copied)))
      as Hfiles.
    simpl in Hfiles. rewrite Hfiles. apply Forall_forall.
    intros f Hf. now apply filter_In in Hf.
  - pose proof (removeDevFiles_in_dirs
                  (DirNode (put_entry "package.json"
                              (FileNode (JSON_stringify j pkg')) copied)))
      as Hdirs.
    simpl in Hdirs. rewrite Hdirs. apply Forall_forall.
    intros d Hd. now apply filter_In in Hd.
Qed.

(** X27. Without a package.json that can be read as a file and parsed,
    and whose content is not [null], [createRelease] does not complete:
    it throws, the old release directory already deleted. *)
Theorem createRelease_needs_package_json (project project' : Entries) :
  createRelease j project = inr project' ->
  exists text pkg,
    lookup_entry "package.json" project = Some (FileNode text)
    /\ JSON_parse j text = inr pkg
    /\ pkg <> Js.Null /\ pkg <> Js.Undefined.
Proof.
  intros H.
  destruct (createRelease_inv _ _ H)
    as [copied [release [text [pkg [pkg' [_ [Hpkg [Hparse [Hdel _]]]]]]]]].
  exists text, pkg.
  rewrite lookup_remove_other in Hpkg by discriminate.
  repeat split; try assumption; intros ->; discriminate Hdel.
Qed.

(** X28. What a release is made of: in a working directory where no
    directory holds a name twice and package.json parses to an object,
    [createRelease] completes; each of dist, index.html, main.js, assets,
    vibecheck, user_guide.html, README.md and LICENSE that the working
    directory has is in the release as it is there, less the development
    files [removeDevFiles] takes out, and each that it has not is not in
    the release; package.json is written without [devDependencies], its
    other keys kept in their order. *)
Theorem createRelease_copies_and_prunes
        (project : Entries) (text : string)
        (props : list (string * Js.value)) :
  unique_names (DirNode project) ->
  lookup_entry "package.json" project = Some (FileNode text) ->
  JSON_parse j text = inr (Js.Obj props) ->
  exists release,
    createRelease j project =
      inr (remove_entry "release" project
             ++ [("release", DirNode release)])%list
    /\ (forall item,
           In item (runtimeItems ++ ["README.md"; "LICENSE"]) ->
           lookup_entry item release
           = option_map removeDevFiles_in (lookup_entry item project))
    /\ lookup_entry "package.json" release
       = Some (FileNode
                 (JSON_stringify j
                    (Js.Obj (filter
                               (fun e => negb (fst e =? "devDependencies"))
                               props)))).
Proof.
  intros Hu Hpkg Hparse.
  pose proof (unique_names_remove "release" _ Hu) as Hcwd.
  destruct (copy_items_spec _ Hcwd
              (runtimeItems ++ ["README.md"; "LICENSE"]) [])
    as [copied [Hcopy Hlook]].
  { repeat constructor; simpl; intuition discriminate. }
  { reflexivity. }
  unfold createRelease, cleanPackageJson.
  rewrite Hcopy, lookup_remove_other, Hpkg, Hparse by discriminate.
  simpl delete_property. cbv iota beta.
  assert (Hnone : lookup_entry "package.json" copied = None).
  { rewrite Hlook. reflexivity. }
  rewrite Hnone. eexists. split; [reflexivity |]. split.
  - intros item Hin.
    assert (Hnames : is_dev_dir item = false /\ is_dev_file item = false
                     /\ item <> "package.json" /\ item <> "release").
    { simpl in Hin.
      repeat (destruct Hin as [<- | Hin];
              [repeat split; try reflexivity; discriminate |]).
      contradiction. }
    destruct Hnames as [Hd [Hf [Hp Hr]]].
    rewrite lookup_sweep by assumption.
    rewrite lookup_put_other by exact Hp.
    rewrite Hlook.
    assert (Hex : existsb (String.eqb item)
                    (runtimeItems ++ ["README.md"; "LICENSE"]) = true).
    { apply existsb_exists. exists item. split; [exact Hin |].
      apply String.eqb_refl. }
    rewrite Hex. now rewrite lookup_remove_other.
  - rewrite lookup_sweep by reflexivity.
    now rewrite lookup_put_same.
Qed.

End CreateRelease.

(* ================================================================== *)
(** ** The further properties at work on the examples *)
(* ================================================================== *)

Lemma startFlaskServer_spawns_interpreter_witness :
  isDev dev_macos = true
  /\ spawned (effects (startFlaskServer dev_macos initial_host)) =
       [{| command := "python3";
           args := ["/Users/dev/vibecheck-pro/flask_server.py"];
           env_overlay := [("PYTHONPATH", "/Users/dev/vibecheck-pro")] |}].
Proof.
  split; [reflexivity |].
  destruct (startFlaskServer_spawns_interpreter dev_macos initial_host
              (or_introl eq_refl)) as [pythonPath [-> [Hspawned _]]].
  exact Hspawned.
Defined.


Lemma module_variables_are_never_cleared_witness :
  mainWindow running_host <> None
  /\ mainWindow
       (snd (run dev_macos [WindowAllClosed; BeforeQuit] running_host))
     <> None.
Proof.
  assert (Hw : mainWindow running_host <> None) by discriminate.
  split; [exact Hw |].
  exact (proj1 (module_variables_are_never_cleared dev_macos
                  [WindowAllClosed; BeforeQuit] running_host) Hw).
Defined.

Lemma analyze_file_succeeds_iff_witness :
  axios_post packaged_linux analyze_url "/data/x.ide"
  = Resolved (Js.Obj [("success", Js.Bool true); ("reportPath", Js.Str "X")])
  /\ completion (analyze_file packaged_linux "/data/x.ide" running_host)
     = Normal (Js.Obj [("success", Js.Bool true); ("path", Js.Str "X")]).
Proof.
  split; [reflexivity |].
  exact (proj2 (analyze_file_succeeds_iff packaged_linux "/data/x.ide"
                  running_host)
           [("success", Js.Bool true); ("reportPath", Js.Str "X")]
           eq_refl eq_refl).
Defined.

Lemma served_by_example (rt : Runtime) :
  served_by (example_browser rt) rt running_host electron_remote.
Proof.
  split; [intros channel path; reflexivity | reflexivity].
Qed.

Lemma handleFile_success_is_earned_witness :
  error_className
    (page (handleFile (example_browser packaged_linux)
             (Js.Str "/data/sample.ide") blank_page)) = "error success"
  /\ exists file result success path,
      invoke (example_browser packaged_linux) "get-file-info"
        (Js.Str "/data/sample.ide") = inr file
      /\ invoke (example_browser packaged_linux) "analyze-file"
           (Js.Str "/data/sample.ide") = inr result
      /\ Js.get result "success" = inr success
      /\ Js.truthy success = true
      /\ Js.get result "path" = inr path
      /\ error_text
           (page (handleFile (example_browser packaged_linux)
                    (Js.Str "/data/sample.ide") blank_page))
         = Js.Str ("Analysis complete! Report saved to: "
                   ++ template_text (example_browser packaged_linux) path)
      /\ calls (handleFile (example_browser packaged_linux)
                  (Js.Str "/data/sample.ide") blank_page)
         = [Invoke "get-file-info" (Js.Str "/data/sample.ide");
            SetInterval 200;
            Invoke "analyze-file" (Js.Str "/data/sample.ide")].
Proof.
  assert (H : error_className
                (page (handleFile (example_browser packaged_linux)
                         (Js.Str "/data/sample.ide") blank_page))
              = "error success") by (vm_compute; reflexivity).
  split; [exact H |].
  exact (handleFile_success_is_earned (example_browser packaged_linux)
           (Js.Str "/data/sample.ide") blank_page H).
Defined.

Lemma handleFile_stops_at_rejected_info_witness :
  invoke (example_browser packaged_linux) "get-file-info"
    (Js.Str "/data/missing.ide")
  = inl (electron_remote "get-file-info" (ENOENT "/data/missing.ide"))
  /\ calls (handleFile (example_browser packaged_linux)
              (Js.Str "/data/missing.ide") blank_page)
     = [Invoke "get-file-info" (Js.Str "/data/missing.ide")].
Proof.
  split; [reflexivity |].
  exact (proj1 (handleFile_stops_at_rejected_info
                  (example_browser packaged_linux)
                  (Js.Str "/data/missing.ide") blank_page _ eq_refl)).
Defined.


Lemma unreadable_file_is_not_uploaded_witness :
  served_by (example_browser packaged_linux) packaged_linux running_host
    electron_remote
  /\ fs_stat packaged_linux "/data/locked.ide"
     = inl (EACCES "/data/locked.ide")
  /\ calls (handleFile (example_browser packaged_linux)
              (Js.Str "/data/locked.ide") blank_page)
     = [Invoke "get-file-info" (Js.Str "/data/locked.ide")].
Proof.
  split; [apply served_by_example |]. split; [reflexivity |].
  rewrite (unreadable_file_is_not_uploaded (example_browser packaged_linux)
             packaged_linux running_host electron_remote
             (served_by_example packaged_linux)
             "/data/locked.ide" blank_page (EACCES "/data/locked.ide")
             eq_refl).
  reflexivity.
Defined.

Lemma report_path_reaches_the_banner_witness :
  served_by (example_browser packaged_linux) packaged_linux running_host
    electron_remote
  /\ fs_entry packaged_linux "/data/sample.ide"
     = File (repeat Byte.x00 1024) 1700000000000
  /\ error_text
       (page (handleFile (example_browser packaged_linux)
                (Js.Str "/data/sample.ide") blank_page))
     = Js.Str "Analysis complete! Report saved to: /reports/sample.html"
  /\ fileName_text
       (page (handleFile (example_browser packaged_linux)
                (Js.Str "/data/sample.ide") blank_page))
     = Js.Str "sample.ide".
Proof.
  split; [apply served_by_example |]. split; [reflexivity |].
  rewrite (report_path_reaches_the_banner (example_browser packaged_linux)
             packaged_linux running_host electron_remote
             (served_by_example packaged_linux)
             "/data/sample.ide" blank_page (repeat Byte.x00 1024)
             1700000000000
             [("success", Js.Bool true);
              ("reportPath", Js.Str "/reports/sample.html")]
             eq_refl eq_refl eq_refl).
  split; reflexivity.
Defined.

Lemma banner_is_never_empty_witness :
  served_by (example_browser sidecar_down) sidecar_down running_host
    electron_remote
  /\ fs_entry sidecar_down "/data/sample.ide"
     = File (repeat Byte.x00 1024) 1700000000000
  /\ axios_post sidecar_down analyze_url "/data/sample.ide"
     = Rejected ECONNREFUSED
  /\ exists text type,
      text <> ""
      /\ (type = "success" \/ type = "error")
      /\ page (handleFile (example_browser sidecar_down)
                 (Js.Str "/data/sample.ide") blank_page)
         = tidied
             (banner (Js.Str text) type
                (with_file_panel (example_browser sidecar_down)
                   (Js.Str "sample.ide") (Js.Num (inject_Z 1024))
                   (started blank_page))).
Proof.
  split; [apply served_by_example |]. split; [reflexivity |].
  split; [reflexivity |].
  apply (banner_is_never_empty (example_browser sidecar_down)
           sidecar_down running_host electron_remote
           (served_by_example sidecar_down)
           "/data/sample.ide" blank_page (repeat Byte.x00 1024)
           1700000000000 eq_refl).
  intros props Hpost. discriminate Hpost.
Defined.

(** Without that condition on the sidecar the banner shows what it was
    sent: a failure whose [error] is an empty list puts that list into
    the banner, which the document displays as no text at all. *)
Lemma banner_of_an_empty_list :
  axios_post sidecar_listing analyze_url "/data/sample.ide"
  = Resolved (Js.Obj [("success", Js.Bool false); ("error", Js.Arr [])])
  /\ error_text
       (page (handleFile (example_browser sidecar_listing)
                (Js.Str "/data/sample.ide") blank_page))
     = Js.Arr [].
Proof.
  split; reflexivity.
Qed.

Lemma on_select_click_takes_first_path_witness :
  served_by (example_browser dev_macos) dev_macos running_host
    electron_remote
  /\ on_select_click (example_browser dev_macos) blank_page
     = mkRendered [Invoke "select-file" Js.Undefined] blank_page (Normal tt).
Proof.
  split; [apply served_by_example |].
  exact (on_select_click_takes_first_path (example_browser dev_macos)
           dev_macos running_host electron_remote
           (served_by_example dev_macos) blank_page).
Defined.

Lemma unique_names_example_tree : unique_names (DirNode example_tree).
Proof.
  simpl. repeat split; repeat constructor; simpl; intuition discriminate.
Qed.

Lemma copyDir_copies_exactly_witness :
  unique_names (DirNode example_tree)
  /\ copyDir (DirNode example_tree) None = inr (DirNode example_tree).
Proof.
  split; [apply unique_names_example_tree |].
  exact (copyDir_copies_exactly example_tree unique_names_example_tree).
Defined.

Lemma createRelease_example :
  createRelease example_json example_project =
    inr [("main.js", FileNode "app");
         ("index.html", FileNode "page");
         ("package.json", FileNode "{pkg}");
         ("node_modules", DirNode [("electron", DirNode [])]);
         ("tests", DirNode [("sample.ide", FileNode "data")]);
         ("vibecheck",
          DirNode [("flask_server.py", FileNode "server");
                   ("tests", DirNode [("test_api.py", FileNode "t")])]);
         ("README.md", FileNode "readme");
         ("release",
          DirNode [("index.html", FileNode "page");
                   ("main.js", FileNode "app");
                   ("vibecheck",
                    DirNode [("flask_server.py", FileNode "server")]);
                   ("README.md", FileNode "readme");
                   ("package.json", FileNode "name,main")])].
Proof. reflexivity. Qed.

Lemma createRelease_ships_only_runtime_items_witness :
  exists project' release,
    createRelease example_json example_project = inr project'
    /\ lookup_entry "release" project' = Some (DirNode release)
    /\ incl (map fst release) shipped_names.
Proof.
  eexists.
  destruct (createRelease_ships_only_runtime_items example_json
              example_project _ createRelease_example)
    as [release [_ [Hlook [Hnames _]]]].
  exists release. split; [apply createRelease_example |].
  split; [exact Hlook | exact Hnames].
Defined.

Lemma createRelease_needs_package_json_witness :
  exists project' text pkg,
    createRelease example_json example_project = inr project'
    /\ lookup_entry "package.json" example_project = Some (FileNode text)
    /\ JSON_parse example_json text = inr pkg.
Proof.
  eexists.
  destruct (createRelease_needs_package_json example_json example_project _
              createRelease_example) as [text [pkg [Hfile [Hparse _]]]].
  exists text, pkg. split; [apply createRelease_example |].
  split; [exact Hfile | exact Hparse].
Defined.

Lemma unique_names_example_project : unique_names (DirNode example_project).
Proof.
  simpl. repeat split; repeat constructor; simpl; intuition discriminate.
Qed.

Lemma createRelease_copies_and_prunes_witness :
  unique_names (DirNode example_project)
  /\ lookup_entry "package.json" example_project = Some (FileNode "{pkg}")
  /\ exists release,
      createRelease example_json example_project =
        inr (remove_entry "release" example_project
               ++ [("release", DirNode release)])%list
      /\ lookup_entry "vibecheck" release
         = Some (DirNode [("flask_server.py", FileNode "server")]).
Proof.
  split; [apply unique_names_example_project |]. split; [reflexivity |].
  destruct (createRelease_copies_and_prunes example_json example_project
              "{pkg}"
              [("name", Js.Str "vibecheck-pro");
               ("devDependencies", Js.Obj [("eslint", Js.Str "^8")]);
               ("main", Js.Str "main.js")]
              unique_names_example_project eq_refl eq_refl)
    as [release [Hrun [Hitems _]]].
  exists release. split; [exact Hrun |].
  rewrite (Hitems "vibecheck") by (simpl; tauto).
  reflexivity.
Defined.
